(** * Energy dashboard (script.js): aggregation and view-model derivation

    A shallow embedding of the aggregation logic of [src/script.js] and the
    properties its specification states about it.

    Number model.  A JavaScript number that comes out of the dataset is a
    finite double; it is modelled by an exact rational ([Q]).  Sums and
    differences of dataset values stay in [Q].  The only operations of the
    script that can leave the finite numbers are the two divisions (the
    percentage of the doughnut and pie labels, and the heatmap intensity);
    their results are modelled by [jsnum], a finite value, [Infinity],
    [-Infinity] or [NaN], with the IEEE results of a division by zero.
    The rounding error of double arithmetic itself and the negative zero
    are not modelled: a sum or a quotient is the exact one, where the
    script's may differ from it in the last bit, and a percentage that
    falls exactly on a rounding boundary of [toFixed] may print one digit
    lower in the script.

    Record model.  A region record is the object
    [{region: name, <source>: number, ...}]; it is modelled by its name and
    a finite map from source names to numbers (a source is assumed not to
    be called "region").  The dataset's [yearly] and [growth_rate] arrays
    feed only the two static charts and are left out. *)

From Stdlib Require Import QArith Qround Qabs Lqa ZArith Lia Ascii.
From Stdlib Require Import Sorting.Sorted Sorting.Permutation.
From stdpp Require Import base option list gmap strings pretty.

Local Open Scope Q_scope.

(** ** Dataset model *)

Record RegionRecord := mkRegion {
  region : string;
  gen : gmap string Q
}.

Record Dataset := mkDataset {
  sources : list string;
  regional : gmap string (list RegionRecord);
  latest_year : string
}.

(** The only failure the script can raise in the modelled code is the
    runtime's [TypeError] (reading a property of, calling a method of, or
    spreading [undefined] or [null]). *)
Inductive error := TypeError.

Inductive Result (A : Type) :=
| Ok (a : A)
| Err (e : error).
Arguments Ok {A} a.
Arguments Err {A} e.

(** ** Aggregation *)

(** [r[s]] for a source name [s]: the raw property read, [undefined] when
    the key is absent.  Names that every object answers to (["region"]
    and the members of [Object.prototype]) are outside this read; see
    [readProp]. *)
Definition prop (r : RegionRecord) (s : string) : option Q := gen r !! s.

(** [r[s] || 0]: an absent key and a zero both give 0. *)
Definition get_or_zero (r : RegionRecord) (s : string) : Q :=
  match prop r s with
  | Some v => v
  | None => 0
  end.

(** [data.sources.reduce((acc, s) => acc + (r[s]||0), 0)] *)
Definition regionTotal (srcs : list string) (r : RegionRecord) : Q :=
  fold_left (fun acc s => acc + get_or_zero r s) srcs 0.

(** [regionalData.reduce((acc, r) => acc + <regionTotal r>, 0)]
    (script.js, lines 69-71). *)
Definition totalGen (srcs : list string) (regs : list RegionRecord) : Q :=
  fold_left (fun acc r => acc + regionTotal srcs r) regs 0.

(** Lines 68-71: [data.regional[year]] is [undefined] for an unknown year
    and [undefined.reduce] raises. *)
Definition totalForYear (data : Dataset) (year : string) : Result Q :=
  match regional data !! year with
  | None => Err TypeError
  | Some regs => Ok (totalGen (sources data) regs)
  end.

(** *** Sorting

    [Array.prototype.sort] is stable (ECMAScript 2019 and later): with a
    consistent comparator the result is the unique stable arrangement, so
    the engine's algorithm is modelled by a stable insertion sort.  The
    comparator returns a number: negative or zero keeps the first argument
    in front, positive moves the second argument in front. *)
Section Sort.
Context {A : Type} (cmp : A -> A -> Q).

Fixpoint insert_sorted (x : A) (l : list A) : list A :=
  match l with
  | [] => [x]
  | y :: l' =>
      if Qle_bool (cmp x y) 0 then x :: y :: l' else y :: insert_sorted x l'
  end.

Definition js_sort (l : list A) : list A := foldr insert_sorted [] l.
End Sort.

(** [arr.slice(0, n)] *)
Definition slice0 {A} (n : nat) (l : list A) : list A := take n l.

(** Lines 181-188: [[...currentRegionalData].sort((a, b) => sumB - sumA)
    .slice(0, 5)].  Spreading [undefined] raises.  The script calls it
    with [n = 5]. *)
Definition byTotalDesc (srcs : list string) (a b : RegionRecord) : Q :=
  regionTotal srcs b - regionTotal srcs a.

Definition fullRanking (srcs : list string) (regs : list RegionRecord)
  : list RegionRecord :=
  js_sort (byTotalDesc srcs) regs.

Definition topRegions (data : Dataset) (year : string) (n : nat)
  : Result (list RegionRecord) :=
  match regional data !! year with
  | None => Err TypeError
  | Some regs => Ok (slice0 n (fullRanking (sources data) regs))
  end.

Definition sortedRegions (data : Dataset) (year : string) :=
  topRegions data year 5.

(** Lines 434-439: the ranking of the regions by one source. *)
Record RankEntry := mkRank {
  rank_region : string;
  val : Q
}.

Definition rankBySource (data : Dataset) (year : string) (source : string)
  : Result (list RankEntry) :=
  match regional data !! year with
  | None => Err TypeError
  | Some regs =>
      Ok (js_sort (fun a b => val b - val a)
            (map (fun r => mkRank (region r) (get_or_zero r source)) regs))
  end.

(** A [map] whose callback may raise: the first failure aborts it, and an
    empty array never calls the callback. *)
Fixpoint mapR {A B} (f : A -> Result B) (l : list A) : Result (list B) :=
  match l with
  | [] => Ok []
  | x :: l' =>
      match f x with
      | Err e => Err e
      | Ok y =>
          match mapR f l' with
          | Err e => Err e
          | Ok ys => Ok (y :: ys)
          end
      end
  end.

(** Lines 314-317: per-source totals, in the order of [data.sources].
    [currentRegionalData.reduce] sits inside the callback of
    [data.sources.map]. *)
Definition sourceTotal (regs : list RegionRecord) (source : string) : Q :=
  fold_left (fun acc r => acc + get_or_zero r source) regs 0.

Definition sourceMixTotals (data : Dataset) (year : string)
  : Result (list Q) :=
  mapR (fun source =>
          match regional data !! year with
          | None => Err TypeError
          | Some regs => Ok (sourceTotal regs source)
          end) (sources data).

(** Lines 360-368: one entry per region, sorted by total. *)
Record ShareEntry := mkShare {
  share_region : string;
  total : Q
}.

Definition regionShareTotals (data : Dataset) (year : string)
  : Result (list ShareEntry) :=
  match regional data !! year with
  | None => Err TypeError
  | Some regs =>
      Ok (js_sort (fun a b => total b - total a)
            (map (fun r => mkShare (region r) (regionTotal (sources data) r))
               regs))
  end.

(** ** JavaScript numbers outside the finite range

    The results of the script's divisions.  The divisor of a division by
    zero is always the positive zero here (an accumulator started at [0]),
    so the sign of the result is the sign of the dividend. *)
Inductive jsnum :=
| Num (q : Q)
| PInf
| NInf
| NaN.

Definition Qlt_bool (x y : Q) : bool := negb (Qle_bool y x).

Definition js_div (a b : jsnum) : jsnum :=
  match a, b with
  | Num x, Num y =>
      if Qeq_bool y 0
      then (if Qeq_bool x 0 then NaN else if Qlt_bool 0 x then PInf else NInf)
      else Num (x / y)
  | Num _, PInf | Num _, NInf => Num 0
  | PInf, Num y => if Qle_bool 0 y then PInf else NInf
  | NInf, Num y => if Qle_bool 0 y then NInf else PInf
  | _, _ => NaN
  end.

Definition js_mul (a b : jsnum) : jsnum :=
  match a, b with
  | Num x, Num y => Num (x * y)
  | PInf, Num y | Num y, PInf =>
      if Qeq_bool y 0 then NaN else if Qlt_bool 0 y then PInf else NInf
  | NInf, Num y | Num y, NInf =>
      if Qeq_bool y 0 then NaN else if Qlt_bool 0 y then NInf else PInf
  | PInf, PInf | NInf, NInf => PInf
  | PInf, NInf | NInf, PInf => NInf
  | _, _ => NaN
  end.

Definition js_add (a b : jsnum) : jsnum :=
  match a, b with
  | Num x, Num y => Num (x + y)
  | PInf, NInf | NInf, PInf => NaN
  | NaN, _ | _, NaN => NaN
  | PInf, _ | _, PInf => PInf
  | NInf, _ | _, NInf => NInf
  end.

(** [a > b]; every comparison with [NaN] is false. *)
Definition js_gt (a b : jsnum) : bool :=
  match a, b with
  | Num x, Num y => Qlt_bool y x
  | PInf, Num _ | PInf, NInf | Num _, NInf => true
  | _, _ => false
  end.

(** [ToNumber] of a value that is a number or [undefined]. *)
Definition to_jsnum (o : option Q) : jsnum :=
  match o with
  | Some q => Num q
  | None => NaN
  end.

(** *** [Number.prototype.toFixed(1)]

    For a finite [x], [toFixed] takes the integer [n] for which [n / 10]
    is closest to [|x|], the larger one on a tie, and prints it with one
    digit after the point, behind a minus sign when [x < 0]; [tenths] is
    that [n].  (Beyond [1e21] the runtime switches to the exponent
    notation, which is not modelled.) *)
Definition tenths (q : Q) : Z := Qfloor (Qabs q * 10 + (1 # 2)).

Definition toFixed1 (x : jsnum) : string :=
  match x with
  | Num q =>
      let n := Z.to_N (tenths q) in
      (if Qlt_bool q 0 then "-" else "")
        +:+ pretty (n `div` 10)%N +:+ "." +:+ pretty (n `mod` 10)%N
  | PInf => "Infinity"
  | NInf => "-Infinity"
  | NaN => "NaN"
  end.

(** *** [ToNumber] of a string

    What a string converts to when it is compared with a number: the empty
    string is 0, a signed [Infinity] is an infinity, a signed decimal
    literal (digits, optionally a point and more digits) is its value, and
    anything else is [NaN].  White space, exponents and the prefixed
    literals are not modelled; [toFixed] produces none of them below
    [1e21]. *)
Definition digitValue (c : ascii) : option N :=
  let n := N_of_ascii c in
  if (48 <=? n)%N && (n <=? 57)%N then Some (n - 48)%N else None.

Fixpoint parseFraction (s : string) (num den : N) (seen : bool)
  : option (N * N) :=
  match s with
  | EmptyString => if seen then Some (num, den) else None
  | String c s' =>
      match digitValue c with
      | Some d => parseFraction s' (num * 10 + d) (den * 10) true
      | None => None
      end
  end.

Fixpoint parseUnsigned (s : string) (acc : N) (seen : bool)
  : option (N * N) :=
  match s with
  | EmptyString => if seen then Some (acc, 1%N) else None
  | String c s' =>
      if decide (c = "."%char) then parseFraction s' acc 1 seen
      else
        match digitValue c with
        | Some d => parseUnsigned s' (acc * 10 + d) true
        | None => None
        end
  end.

Definition ratio (p : N * N) : Q :=
  inject_Z (Z.of_N p.1) / inject_Z (Z.of_N p.2).

Definition ToNumber (s : string) : jsnum :=
  if decide (s = "") then Num 0
  else if decide (s = "Infinity") then PInf
  else if decide (s = "+Infinity") then PInf
  else if decide (s = "-Infinity") then NInf
  else
    match s with
    | String "-" s' =>
        match parseUnsigned s' 0 false with
        | Some p => Num (- ratio p)
        | None => NaN
        end
    | String "+" s' =>
        match parseUnsigned s' 0 false with
        | Some p => Num (ratio p)
        | None => NaN
        end
    | _ =>
        match parseUnsigned s 0 false with
        | Some p => Num (ratio p)
        | None => NaN
        end
    end.

(** ** The percentage labels of the mix and share charts *)

(** Lines 338-344 and 392-398: the sum of the visible entries;
    [vis i] is [ctx.chart.getDataVisibility(i)]. *)
Fixpoint visibleSumFrom (vis : nat -> bool) (i : nat) (dataArr : list Q)
    (sum : Q) : Q :=
  match dataArr with
  | [] => sum
  | d :: rest =>
      visibleSumFrom vis (S i) rest (if vis i then sum + d else sum)
  end.

Definition visibleSum (vis : nat -> bool) (dataArr : list Q) : Q :=
  visibleSumFrom vis 0 dataArr 0.

(** Lines 345 and 399: [value*100 / sum], before [toFixed]. *)
Definition rawPercent (value : Q) (dataArr : list Q) (vis : nat -> bool)
  : jsnum :=
  js_div (Num (value * 100)) (Num (visibleSum vis dataArr)).

(** Lines 337-347 and 391-401, the same formatter in both charts:
    [percentage] is a string, and [percentage > 3] compares the number it
    converts to. *)
Definition formatter (value : Q) (dataArr : list Q) (vis : nat -> bool)
  : string :=
  let percentage := toFixed1 (rawPercent value dataArr vis) in
  if js_gt (ToNumber percentage) (Num 3)
  then percentage +:+ "%"
  else "".

(** The percentage of the entry at [index], as a number: the value of the
    string the formatter computes when the chart calls it for that
    entry. *)
Definition visibleSharePercent (values : list Q) (vis : nat -> bool)
    (index : nat) : jsnum :=
  match values !! index with
  | Some value => ToNumber (toFixed1 (rawPercent value values vis))
  | None => NaN
  end.

(** The labels the formatter gives to the entries of a data array. *)
Definition labelsOf (dataArr : list Q) (vis : nat -> bool) : list string :=
  map (fun value => formatter value dataArr vis) dataArr.

(** ** The heatmap (the later, overriding [window.showHeatmap]) *)

(** Lines 489-492.  [maxVal] starts at the number 0 and is assigned the
    raw [r[s]], so it is a number or [undefined] as far as the types go;
    a comparison with [undefined] is false. *)
Definition maxVal_cell (r : RegionRecord) (maxVal : option Q) (s : string)
  : option Q :=
  if js_gt (Num (get_or_zero r s)) (to_jsnum maxVal) then prop r s else maxVal.

Definition maxVal_row (srcs : list string) (maxVal : option Q)
    (r : RegionRecord) : option Q :=
  fold_left (maxVal_cell r) srcs maxVal.

Definition gridMax (srcs : list string) (regs : list RegionRecord)
  : option Q :=
  fold_left (maxVal_row srcs) regs (Some 0).

(** Line 504: [0.1 + (val / maxVal) * 0.9]. *)
Definition heatmapIntensity (v : Q) (maxVal : option Q) : jsnum :=
  js_add (Num (1 # 10))
    (js_mul (js_div (Num v) (to_jsnum maxVal)) (Num (9 # 10))).

Inductive CellText :=
| Dash                (* '-' *)
| Localized (v : Q).  (* val.toLocaleString() *)

Inductive TextColor := White | Black.

(** A table cell: its text, the alpha of its [rgba(37, 99, 235, alpha)]
    background and its text colour; the last two are set only in the
    [val > 0] branch, the only place where the division is evaluated. *)
Record Cell := mkCell {
  textContent : CellText;
  backgroundAlpha : option jsnum;
  color : option TextColor
}.

(** Lines 500-507: the cell of a value. *)
Definition heatmapCellOf (maxVal : option Q) (v : Q) : Cell :=
  if Qlt_bool 0 v
  then
    let intensity := heatmapIntensity v maxVal in
    mkCell (Localized v) (Some intensity)
      (Some (if js_gt intensity (Num (1 # 2)) then White else Black))
  else mkCell Dash None None.

(** Lines 498-508: [const val = r[s] || 0] and its cell. *)
Definition heatmapCell (maxVal : option Q) (r : RegionRecord) (s : string)
  : Cell :=
  heatmapCellOf maxVal (get_or_zero r s).

Record HeatmapTable := mkHeatmap {
  header : list string;
  rows : list (string * list Cell)
}.

(** Lines 471-511, without the DOM plumbing. *)
Definition heatmapRows (srcs : list string) (regs : list RegionRecord)
  : list (string * list Cell) :=
  let maxVal := gridMax srcs regs in
  map (fun r => (region r, map (heatmapCell maxVal r) srcs)) regs.

Definition heatmap (data : Dataset) (year : string) : Result HeatmapTable :=
  match regional data !! year with
  | None => Err TypeError
  | Some regs => Ok (mkHeatmap (sources data) (heatmapRows (sources data) regs))
  end.

(** ** View-models of the year-specific charts *)

(** [hue = (index * 137) % 360] *)
Definition hue (index : nat) : Z := (Z.of_nat index * 137) mod 360.

Record BarSeries := mkSeries {
  series_label : string;
  series_data : list (option Q);   (* [sortedRegions.map(r => r[source])] *)
  series_hue : Z
}.

Record RegionalChart := mkRegional {
  regional_labels : list string;
  regional_datasets : list BarSeries
}.

(** Lines 181-201. *)
Definition regionalChart (data : Dataset) (year : string)
  : Result RegionalChart :=
  match sortedRegions data year with
  | Err e => Err e
  | Ok sorted =>
      Ok (mkRegional (map region sorted)
            (imap (fun index source =>
                     mkSeries source (map (fun r => prop r source) sorted)
                       (hue index)) (sources data)))
  end.

Record MixChart := mkMix {
  mix_labels : list string;
  mix_data : list Q;
  mix_hues : list Z
}.

(** Lines 314-327. *)
Definition mixChart (data : Dataset) (year : string) : Result MixChart :=
  match sourceMixTotals data year with
  | Err e => Err e
  | Ok sourceTotals =>
      Ok (mkMix (sources data) sourceTotals
            (imap (fun i _ => hue i) (sources data)))
  end.

Record ShareChart := mkShareChart {
  share_labels : list string;
  share_data : list Q
}.

(** Lines 360-380. *)
Definition shareChart (data : Dataset) (year : string) : Result ShareChart :=
  match regionShareTotals data year with
  | Err e => Err e
  | Ok regionTotals =>
      Ok (mkShareChart (map share_region regionTotals) (map total regionTotals))
  end.

Record RankingChart := mkRanking {
  ranking_source : string;
  ranking_labels : list string;
  ranking_data : list Q
}.

(** Lines 434-452. *)
Definition rankingChart (data : Dataset) (year : string) (source : string)
  : Result RankingChart :=
  match rankBySource data year source with
  | Err e => Err e
  | Ok rankingData =>
      Ok (mkRanking source (map rank_region rankingData) (map val rankingData))
  end.

(** ** Page state and the selection handler

    The globals [window.currentYear], [window.globalData] and
    [window.charts], and the parts of the page the handlers write: the
    three statistics, the detail container, the value of the source
    selector and the [active] class of the heatmap button ([None] when the
    page has no such button).  A chart slot holds the view-model handed to
    the charting library.  The [active] class of the year buttons is a
    pure display matter and is left out. *)
Inductive DetailView :=
| DetailEmpty                     (* [innerHTML = ''] *)
| DetailCanvas                    (* the canvas of the ranking chart *)
| DetailTable (t : HeatmapTable).

Record State := mkState {
  currentYear : string;
  globalData : option Dataset;
  sourceSelect : string;
  heatmapBtn : option bool;
  statYear : string;
  statFeature : string;
  statTotal : option Z;
  charts_regional : option RegionalChart;
  charts_mix : option MixChart;
  charts_share : option ShareChart;
  charts_detail : option RankingChart;
  detailView : DetailView
}.

Definition set_currentYear (y : string) (s : State) : State :=
  mkState y (globalData s) (sourceSelect s) (heatmapBtn s) (statYear s)
    (statFeature s) (statTotal s) (charts_regional s) (charts_mix s)
    (charts_share s) (charts_detail s) (detailView s).

Definition set_heatmapBtn (b : option bool) (s : State) : State :=
  mkState (currentYear s) (globalData s) (sourceSelect s) b (statYear s)
    (statFeature s) (statTotal s) (charts_regional s) (charts_mix s)
    (charts_share s) (charts_detail s) (detailView s).

Definition set_statYear (t : string) (s : State) : State :=
  mkState (currentYear s) (globalData s) (sourceSelect s) (heatmapBtn s) t
    (statFeature s) (statTotal s) (charts_regional s) (charts_mix s)
    (charts_share s) (charts_detail s) (detailView s).

Definition set_statFeature (t : string) (s : State) : State :=
  mkState (currentYear s) (globalData s) (sourceSelect s) (heatmapBtn s)
    (statYear s) t (statTotal s) (charts_regional s) (charts_mix s)
    (charts_share s) (charts_detail s) (detailView s).

Definition set_statTotal (t : option Z) (s : State) : State :=
  mkState (currentYear s) (globalData s) (sourceSelect s) (heatmapBtn s)
    (statYear s) (statFeature s) t (charts_regional s) (charts_mix s)
    (charts_share s) (charts_detail s) (detailView s).

Definition set_charts_regional (c : option RegionalChart) (s : State)
  : State :=
  mkState (currentYear s) (globalData s) (sourceSelect s) (heatmapBtn s)
    (statYear s) (statFeature s) (statTotal s) c (charts_mix s)
    (charts_share s) (charts_detail s) (detailView s).

Definition set_charts_mix (c : option MixChart) (s : State) : State :=
  mkState (currentYear s) (globalData s) (sourceSelect s) (heatmapBtn s)
    (statYear s) (statFeature s) (statTotal s) (charts_regional s) c
    (charts_share s) (charts_detail s) (detailView s).

Definition set_charts_share (c : option ShareChart) (s : State) : State :=
  mkState (currentYear s) (globalData s) (sourceSelect s) (heatmapBtn s)
    (statYear s) (statFeature s) (statTotal s) (charts_regional s)
    (charts_mix s) c (charts_detail s) (detailView s).

Definition set_charts_detail (c : option RankingChart) (s : State) : State :=
  mkState (currentYear s) (globalData s) (sourceSelect s) (heatmapBtn s)
    (statYear s) (statFeature s) (statTotal s) (charts_regional s)
    (charts_mix s) (charts_share s) c (detailView s).

Definition set_detailView (v : DetailView) (s : State) : State :=
  mkState (currentYear s) (globalData s) (sourceSelect s) (heatmapBtn s)
    (statYear s) (statFeature s) (statTotal s) (charts_regional s)
    (charts_mix s) (charts_share s) (charts_detail s) v.

(** Handlers run in a state monad with exceptions: a raise keeps the
    writes made before it. *)
Definition M (A : Type) : Type := State -> Result A * State.

Definition ret {A} (a : A) : M A := fun s => (Ok a, s).

Definition bind {A B} (c : M A) (k : A -> M B) : M B :=
  fun s =>
    match c s with
    | (Ok a, s') => k a s'
    | (Err e, s') => (Err e, s')
    end.

Definition throw {A} (e : error) : M A := fun s => (Err e, s).
Definition gets {A} (f : State -> A) : M A := fun s => (Ok (f s), s).
Definition modify (f : State -> State) : M unit := fun s => (Ok tt, f s).

Definition lift {A} (r : Result A) : M A :=
  match r with
  | Ok a => ret a
  | Err e => throw e
  end.

Notation "x <- c ;; k" := (bind c (fun x => k))
  (at level 100, c at next level, right associativity).
Notation "c ;; k" := (bind c (fun _ => k))
  (at level 100, right associativity).

(** [window.globalData], at the first read of one of its properties:
    [null.regional] raises. *)
Definition readData : M Dataset :=
  d <- gets globalData ;;
  match d with
  | Some data => ret data
  | None => throw TypeError
  end.

(** [Math.round] *)
Definition Math_round (x : Q) : Z := Qfloor (x + (1 # 2)).

(** Lines 60-65.  (A year named like a member of [Object.prototype]
    would read the inherited member instead of the fallback text; such
    years are outside the model.) *)
Definition characteristics : gmap string string :=
  list_to_map
    [("2021", "연료전지 비중 55% (압도적 1위) ⚡");
     ("2022", "태양광 16% 성장 ☀️");
     ("2023", "바이오 에너지 7% 성장 📈")].

Definition featureOf (year : string) : string :=
  match characteristics !! year with
  | Some t => t
  | None => "분석 중..."
  end.

(** Lines 174-209.  Here and in the next two renderers the [destroy()]
    of a chart already in the slot acts on the charting library's object
    and is not modelled. *)
Definition renderRegionalChart (year : string) : M unit :=
  data <- readData ;;
  c <- lift (regionalChart data year) ;;
  modify (set_charts_regional (Some c)).

(** Lines 309-352. *)
Definition renderMixChart (year : string) : M unit :=
  data <- readData ;;
  c <- lift (mixChart data year) ;;
  modify (set_charts_mix (Some c)).

(** Lines 355-406. *)
Definition renderRegionalShareChart (year : string) : M unit :=
  data <- readData ;;
  c <- lift (shareChart data year) ;;
  modify (set_charts_share (Some c)).

(** Lines 423-460 (the later, overriding definition). *)
Definition updateRankingTable : M unit :=
  btn <- gets heatmapBtn ;;
  modify (set_heatmapBtn (option_map (fun _ => false) btn)) ;;
  source <- gets sourceSelect ;;
  modify (set_detailView DetailCanvas) ;;
  data <- readData ;;
  year <- gets currentYear ;;
  c <- lift (rankingChart data year source) ;;
  modify (set_charts_detail (Some c)).

(** Lines 462-515 (the later, overriding definition), called with the
    heatmap button. *)
Definition showHeatmap : M unit :=
  btn <- gets heatmapBtn ;;
  modify (set_heatmapBtn (option_map (fun _ => true) btn)) ;;
  modify (set_detailView DetailEmpty) ;;
  data <- readData ;;
  year <- gets currentYear ;;
  t <- lift (heatmap data year) ;;
  modify (set_detailView (DetailTable t)).

(** Lines 47-87.  The year is the property key the argument converts to.
    The locale formatting of the total is left out: [statTotal] is the
    rounded number. *)
Definition filterByYear (year : string) : M unit :=
  modify (set_currentYear year) ;;
  modify (set_statYear (year +:+ "년")) ;;
  modify (set_statFeature (featureOf year)) ;;
  data <- readData ;;
  totalGen <- lift (totalForYear data year) ;;
  modify (set_statTotal (Some (Math_round totalGen))) ;;
  renderRegionalChart year ;;
  renderMixChart year ;;
  renderRegionalShareChart year ;;
  btn <- gets heatmapBtn ;;
  match btn with
  | Some true => showHeatmap
  | _ => updateRankingTable
  end.

(** ** Definitions used to state the properties *)

(** Every series visible: [getDataVisibility] is true everywhere. *)
Definition allVisible : nat -> bool := fun _ => true.

(** The entries the visibility function keeps, from index [i] on. *)
Fixpoint visibleValues (vis : nat -> bool) (i : nat) (l : list Q) : list Q :=
  match l with
  | [] => []
  | d :: rest =>
      if vis i then d :: visibleValues vis (S i) rest
      else visibleValues vis (S i) rest
  end.

Definition visibleCount (vis : nat -> bool) (values : list Q) : nat :=
  length (visibleValues vis 0 values).

(** The percentages of the visible entries added up, from index [i] on
    ([rest] is [values] without its first [i] entries). *)
Fixpoint percentSumFrom (values : list Q) (vis : nat -> bool) (i : nat)
    (rest : list Q) : jsnum :=
  match rest with
  | [] => Num 0
  | _ :: rest' =>
      if vis i
      then js_add (visibleSharePercent values vis i)
             (percentSumFrom values vis (S i) rest')
      else percentSumFrom values vis (S i) rest'
  end.

Definition percentSum (values : list Q) (vis : nat -> bool) : jsnum :=
  percentSumFrom values vis 0 values.

(** A number rounded to one decimal place, halves away from zero. *)
Definition roundTo1 (q : Q) : Q :=
  (if Qlt_bool q 0 then - inject_Z (tenths q) else inject_Z (tenths q)) / 10.

(** A JavaScript number that is the finite number [q]. *)
Definition isNum (x : jsnum) (q : Q) : Prop :=
  match x with
  | Num p => p == q
  | _ => False
  end.

(** A list in descending order of a key. *)
Definition descending {A} (key : A -> Q) : list A -> Prop :=
  StronglySorted (fun a b => key b <= key a).

(** The entries of a list whose key is [k], in their order in the list. *)
Definition withKey {A} (key : A -> Q) (k : Q) (l : list A) : list A :=
  List.filter (fun a => Qeq_bool (key a) k) l.

(** The heatmap intensity as the specification words it: 0 for a value
    that is not positive, otherwise
    [floor + (value / maxValue) * (ceiling - floor)] clamped to
    [[0, ceiling]]. *)
Definition clamp (lo hi x : Q) : Q :=
  if Qlt_bool x lo then lo else if Qlt_bool hi x then hi else x.

Definition heatmapIntensity_spec (value maxValue floor ceiling : Q) : Q :=
  if Qle_bool value 0 then 0
  else clamp 0 ceiling (floor + (value / maxValue) * (ceiling - floor)).

(** The intensity a cell is painted with, as a number: no background is
    intensity 0. *)
Definition intensityOf (c : Cell) : Q :=
  match backgroundAlpha c with
  | Some (Num i) => i
  | _ => 0
  end.

(** The cell of a value that is not positive. *)
Definition emptyCell : Cell := mkCell Dash None None.

(** The two-region dataset of the end-to-end example. *)
Definition exA : RegionRecord :=
  mkRegion "A" (<["solar" := 100]> (<["wind" := 0]> ∅)).
Definition exB : RegionRecord :=
  mkRegion "B" (<["solar" := 50]> (<["wind" := 50]> ∅)).
Definition exData : Dataset :=
  mkDataset ["solar"; "wind"] (<["2023" := [exA; exB]]> ∅) "2023".

(** A page showing year 2023 of the example dataset. *)
Definition exState : State :=
  mkState "2023" (Some exData) "solar" (Some false) "2023년"
    (featureOf "2023") (Some 200%Z) None None None None DetailCanvas.

(** A one-region dataset whose sources hold 3.0% and 97.0% of the year. *)
Definition exThree : Dataset :=
  mkDataset ["solar"; "wind"]
    (<["2023" := [mkRegion "A" (<["solar" := 3]> (<["wind" := 97]> ∅))]]> ∅)
    "2023".

(** A year whose only region has a zero and an absent value. *)
Definition exZeroRegion : RegionRecord := mkRegion "A" (<["solar" := 0]> ∅).
Definition exZero : Dataset :=
  mkDataset ["solar"; "wind"] (<["2023" := [exZeroRegion]]> ∅) "2023".

(** The sum of a list of numbers, as the specification writes it. *)
Fixpoint Qsum (l : list Q) : Q :=
  match l with
  | [] => 0
  | x :: l' => x + Qsum l'
  end.

(** ** The static charts ([renderYearlyCharts], lines 92-171)

    The loaded object carries, besides the fields of [Dataset], the
    pre-aggregated [yearly] rows and the [growth_rate] pairs; either key
    may be absent. *)
Record YearlyAggregate := mkYearly {
  yearly_year : string;
  yearly_gen : gmap string Q
}.

Record GrowthEntry := mkGrowth {
  growth_year : string;
  rate : Q
}.

Record LoadedData := mkLoaded {
  core : Dataset;
  yearly : option (list YearlyAggregate);
  growth_rate : option (list GrowthEntry)
}.

Record TrendSeries := mkTrend {
  trend_label : string;
  trend_data : list (option Q);   (* [data.yearly.map(d => d[source])] *)
  trend_hue : Z
}.

Record TrendChart := mkTrendChart {
  trend_labels : list string;
  trend_datasets : list TrendSeries
}.

Inductive BarColor :=
| Green   (* '#10b981' *)
| Red.    (* '#ef4444' *)

Record GrowthChart := mkGrowthChart {
  growth_labels : list string;
  growth_data : list Q;
  growth_colors : list BarColor
}.

(** [arr.map((x, index) => ...)] with a callback that may raise. *)
Fixpoint mapRi {A B} (f : nat -> A -> Result B) (index : nat) (l : list A)
  : Result (list B) :=
  match l with
  | [] => Ok []
  | x :: l' =>
      match f index x with
      | Err e => Err e
      | Ok y =>
          match mapRi f (S index) l' with
          | Err e => Err e
          | Ok ys => Ok (y :: ys)
          end
      end
  end.

(** Lines 96-132: the series are built first (line 97), then the labels
    (line 112); [data.yearly.map] raises when [yearly] is absent. *)
Definition trendChart (data : LoadedData) : Result TrendChart :=
  match
    mapRi (fun index source =>
             match yearly data with
             | None => Err TypeError
             | Some ys =>
                 Ok (mkTrend source
                       (map (fun d => yearly_gen d !! source) ys)
                       (hue index))
             end) 0 (sources (core data))
  with
  | Err e => Err e
  | Ok yearlyDatasets =>
      match yearly data with
      | None => Err TypeError
      | Some ys => Ok (mkTrendChart (map yearly_year ys) yearlyDatasets)
      end
  end.

(** Lines 135-148: [data.growth_rate || []]; a bar is green when its rate
    is at least 0. *)
Definition growthChart (data : LoadedData) : GrowthChart :=
  let growthData := default [] (growth_rate data) in
  mkGrowthChart (map growth_year growthData) (map rate growthData)
    (map (fun d => if Qle_bool 0 (rate d) then Green else Red) growthData).

(** ** Page start-up ([DOMContentLoaded], lines 14-44)

    The page beyond [State]: the options of the source selector, the two
    static charts and the alerts shown so far. *)
Inductive InitFailure :=
| FetchError                (* the rejection of [fetch] or of [json()] *)
| LoadError                 (* "JSON 데이터 로드 실패 (Fetch Error)" *)
| NoDataError               (* "데이터가 없습니다." *)
| RuntimeError (e : error).

Record Page := mkPage {
  page_state : State;
  sourceOptions : list string;
  yearlyChart : option TrendChart;
  growthChartSlot : option GrowthChart;
  alerts : list InitFailure
}.

(** What the awaited [fetch('dashboard_data.json')] turns out to be: a
    rejection, a response that is not [ok], or the parsed body ([None]
    for a body that parses to a falsy value). *)
Inductive FetchOutcome :=
| FetchRejected
| FetchNotOk
| FetchJson (body : option LoadedData).

(** Lines 16-28: [window.globalData] when it is set, the fetched body
    otherwise. *)
Definition acquire (preloaded : option LoadedData) (fetched : FetchOutcome)
  : InitFailure + LoadedData :=
  match preloaded with
  | Some data => inr data
  | None =>
      match fetched with
      | FetchRejected => inl FetchError
      | FetchNotOk => inl LoadError
      | FetchJson None => inl NoDataError
      | FetchJson (Some data) => inr data
      end
  end.

Definition set_globalData (d : option Dataset) (s : State) : State :=
  mkState (currentYear s) d (sourceSelect s) (heatmapBtn s) (statYear s)
    (statFeature s) (statTotal s) (charts_regional s) (charts_mix s)
    (charts_share s) (charts_detail s) (detailView s).

Definition set_sourceSelect (v : string) (s : State) : State :=
  mkState (currentYear s) (globalData s) v (heatmapBtn s) (statYear s)
    (statFeature s) (statTotal s) (charts_regional s) (charts_mix s)
    (charts_share s) (charts_detail s) (detailView s).

(** Lines 296-304, the definition in force when the page starts (the
    assignment to [window.populateRankingOptions] replaces the hoisted
    declaration of line 410): one option per source is appended.  Which
    option the selector then reports as its value is the browser's doing
    and is taken as given ([picked]). *)
Definition populateRankingOptions (data : Dataset) (picked : string)
    (p : Page) : Page :=
  mkPage (set_sourceSelect picked (page_state p))
    (sourceOptions p ++ sources data) (yearlyChart p) (growthChartSlot p)
    (alerts p).

(** Lines 92-171: the growth chart is created after the trend chart. *)
Definition renderYearlyCharts (data : LoadedData) (p : Page)
  : Result unit * Page :=
  match trendChart data with
  | Err e => (Err e, p)
  | Ok c =>
      (Ok tt,
       mkPage (page_state p) (sourceOptions p) (Some c)
         (Some (growthChart data)) (alerts p))
  end.

(** The [catch] block: [alert] with the message of the error. *)
Definition alert (f : InitFailure) (p : Page) : Page :=
  mkPage (page_state p) (sourceOptions p) (yearlyChart p)
    (growthChartSlot p) (alerts p ++ [f]).

(** Lines 14-44.  [preloaded] is [window.globalData] when the event
    fires. *)
Definition init (preloaded : option LoadedData) (fetched : FetchOutcome)
    (picked : string) (p : Page) : Page :=
  match acquire preloaded fetched with
  | inl f => alert f p
  | inr data =>
      let s1 :=
        set_currentYear (latest_year (core data))
          (set_globalData (Some (core data)) (page_state p)) in
      let p1 :=
        populateRankingOptions (core data) picked
          (mkPage s1 (sourceOptions p) (yearlyChart p) (growthChartSlot p)
             (alerts p)) in
      match filterByYear (currentYear (page_state p1)) (page_state p1) with
      | (Err e, s2) =>
          alert (RuntimeError e)
            (mkPage s2 (sourceOptions p1) (yearlyChart p1)
               (growthChartSlot p1) (alerts p1))
      | (Ok _, s2) =>
          let p2 :=
            mkPage s2 (sourceOptions p1) (yearlyChart p1)
              (growthChartSlot p1) (alerts p1) in
          match renderYearlyCharts data p2 with
          | (Err e, p3) => alert (RuntimeError e) p3
          | (Ok _, p3) => p3
          end
      end
  end.

(** ** Which definition a global name ends up with

    The script declares some functions ([function f() {...}]) and assigns
    others to [window] ([window.f = function ...]), some names twice.
    Declarations are bound before the first statement runs; the
    assignments then run in source order.  A definition is named by the
    line it starts on. *)
Inductive TopLevel :=
| FunDecl (name : string) (line : nat)
| WindowAssign (name : string) (line : nat).

Definition hoist (prog : list TopLevel) (g : gmap string nat)
  : gmap string nat :=
  fold_left (fun g st =>
               match st with
               | FunDecl name line => <[name := line]> g
               | WindowAssign _ _ => g
               end) prog g.

Definition runAssignments (prog : list TopLevel) (g : gmap string nat)
  : gmap string nat :=
  fold_left (fun g st =>
               match st with
               | WindowAssign name line => <[name := line]> g
               | FunDecl _ _ => g
               end) prog g.

Definition load (prog : list TopLevel) : gmap string nat :=
  runAssignments prog (hoist prog ∅).

(** The function definitions of script.js, in source order. *)
Definition script : list TopLevel :=
  [WindowAssign "filterByYear" 47;
   FunDecl "renderYearlyCharts" 92;
   FunDecl "renderRegionalChart" 174;
   WindowAssign "showHeatmap" 212;
   WindowAssign "showRanking" 248;
   WindowAssign "updateRankingTable" 255;
   FunDecl "setActiveButton" 290;
   WindowAssign "populateRankingOptions" 296;
   FunDecl "renderMixChart" 309;
   FunDecl "renderRegionalShareChart" 355;
   FunDecl "populateRankingOptions" 410;
   WindowAssign "updateRankingTable" 423;
   WindowAssign "showHeatmap" 462;
   FunDecl "toggleBtn" 518].

(** The last definition of each kind that a script gives to a name. *)
Fixpoint lastDecl (prog : list TopLevel) (name : string) (acc : option nat)
  : option nat :=
  match prog with
  | [] => acc
  | FunDecl n line :: rest =>
      lastDecl rest name (if decide (n = name) then Some line else acc)
  | WindowAssign _ _ :: rest => lastDecl rest name acc
  end.

Fixpoint lastAssign (prog : list TopLevel) (name : string)
    (acc : option nat) : option nat :=
  match prog with
  | [] => acc
  | WindowAssign n line :: rest =>
      lastAssign rest name (if decide (n = name) then Some line else acc)
  | FunDecl _ _ :: rest => lastAssign rest name acc
  end.

(** ** Property reads with everything an object answers to

    [r[s]] on a region record as the runtime performs it: the record's own
    [region] key holds the name, its own source keys hold numbers, every
    object inherits the members of [Object.prototype], and any other name
    reads [undefined].  [prop] is this read restricted to the numeric
    keys; the two agree on every name that is neither ["region"] nor
    inherited ([prop_readProp]). *)
Inductive jsval :=
| VUndefined
| VNumber (q : Q)
| VString (s : string)
| VInherited (name : string).   (* a member of [Object.prototype] *)

Definition objectPrototypeNames : list string :=
  ["constructor"; "hasOwnProperty"; "isPrototypeOf"; "propertyIsEnumerable";
   "toLocaleString"; "toString"; "valueOf"; "__proto__";
   "__defineGetter__"; "__defineSetter__"; "__lookupGetter__";
   "__lookupSetter__"].

Definition readProp (r : RegionRecord) (s : string) : jsval :=
  if String.eqb s "region" then VString (region r)
  else
    match gen r !! s with
    | Some v => VNumber v
    | None =>
        if existsb (String.eqb s) objectPrototypeNames
        then VInherited s
        else VUndefined
    end.

(** ** Further definitions used to state the properties *)

(** The detail view is in heatmap mode. *)
Definition heatmapMode (s : State) : bool :=
  match heatmapBtn s with
  | Some true => true
  | _ => false
  end.

(** A page before start-up: the globals as lines 10-12 leave them and
    nothing rendered. *)
Definition blankState : State :=
  mkState "2023" None "" (Some false) "" "" None None None None None
    DetailEmpty.

Definition blankPage : Page := mkPage blankState [] None None [].

(** The example dataset with two yearly rows and growth rates. *)
Definition exLoaded : LoadedData :=
  mkLoaded exData
    (Some [mkYearly "2022" (<["solar" := 120]> ∅);
           mkYearly "2023" (<["solar" := 150]> (<["wind" := 50]> ∅))])
    (Some [mkGrowth "2022" (-(5 # 2)); mkGrowth "2023" 0]).

(** The view-models of a year's region records, and the page a successful
    selection of that year leaves. *)
Definition regionalChartOf (data : Dataset) (regs : list RegionRecord)
  : RegionalChart :=
  let top := take 5 (fullRanking (sources data) regs) in
  mkRegional (map region top)
    (imap (fun index source =>
             mkSeries source (map (fun r => prop r source) top) (hue index))
       (sources data)).

Definition mixChartOf (data : Dataset) (regs : list RegionRecord)
  : MixChart :=
  mkMix (sources data) (map (sourceTotal regs) (sources data))
    (imap (fun i _ => hue i) (sources data)).

Definition shareEntriesOf (data : Dataset) (regs : list RegionRecord)
  : list ShareEntry :=
  js_sort (fun a b => total b - total a)
    (map (fun r => mkShare (region r) (regionTotal (sources data) r)) regs).

Definition shareChartOf (data : Dataset) (regs : list RegionRecord)
  : ShareChart :=
  mkShareChart (map share_region (shareEntriesOf data regs))
    (map total (shareEntriesOf data regs)).

Definition rankEntriesOf (source : string) (regs : list RegionRecord)
  : list RankEntry :=
  js_sort (fun a b => val b - val a)
    (map (fun r => mkRank (region r) (get_or_zero r source)) regs).

Definition rankingChartOf (source : string) (regs : list RegionRecord)
  : RankingChart :=
  mkRanking source (map rank_region (rankEntriesOf source regs))
    (map val (rankEntriesOf source regs)).

Definition heatmapOf (data : Dataset) (regs : list RegionRecord)
  : HeatmapTable :=
  mkHeatmap (sources data) (heatmapRows (sources data) regs).

Definition renderedState (s : State) (data : Dataset) (year : string)
    (regs : list RegionRecord) : State :=
  mkState year (Some data) (sourceSelect s) (heatmapBtn s)
    (year +:+ "년") (featureOf year)
    (Some (Math_round (totalGen (sources data) regs)))
    (Some (regionalChartOf data regs)) (Some (mixChartOf data regs))
    (Some (shareChartOf data regs))
    (if heatmapMode s then charts_detail s
     else Some (rankingChartOf (sourceSelect s) regs))
    (if heatmapMode s then DetailTable (heatmapOf data regs)
     else DetailCanvas).

(** A dataset with two years of different magnitudes. *)
Definition exTwoYears : Dataset :=
  mkDataset ["solar"; "wind"]
    (<["2022" := [mkRegion "A" (<["solar" := 5000]> ∅)]]>
       (<["2023" := [exA; exB]]> ∅))
    "2023".

Definition exTwoState : State :=
  mkState "2023" (Some exTwoYears) "solar" (Some true) "" "" None None None
    None None DetailEmpty.

(** * Properties *)

Lemma fold_left_Qplus_shift {A} (f : A -> Q) (l : list A) (a : Q) :
  fold_left (fun acc x => acc + f x) l a == a + Qsum (map f l).
Proof.
  revert a. induction l as [|x l IH]; intros a; simpl.
  - lra.
  - rewrite IH. lra.
Qed.

(** ** Totals *)

(** A region total is the sum of the record's values over the source
    list, absent keys being 0, and is not negative when the values are
    not. *)
Lemma regionTotal_sum (srcs : list string) (r : RegionRecord) :
  regionTotal srcs r == Qsum (map (get_or_zero r) srcs).
Proof. unfold regionTotal. rewrite fold_left_Qplus_shift. lra. Qed.

Lemma regionTotal_nonneg (srcs : list string) (r : RegionRecord) :
  (forall s, 0 <= get_or_zero r s) -> 0 <= regionTotal srcs r.
Proof.
  intros H. rewrite regionTotal_sum.
  induction srcs as [|s srcs IH]; simpl; [lra|].
  specialize (H s). lra.
Qed.

(** C7: for a year of the regional mapping, the year's total is the sum of
    the region totals of its region records, a region total being the sum
    over the source list of the record's values with absent keys counted
    as 0. *)
Theorem totalForYear_sum_regionTotal (data : Dataset) (year : string)
    (regs : list RegionRecord) :
  regional data !! year = Some regs ->
  exists t, totalForYear data year = Ok t /\
            t == Qsum (map (regionTotal (sources data)) regs) /\
            forall r, regionTotal (sources data) r
                      == Qsum (map (get_or_zero r) (sources data)).
Proof.
  intros Hy. unfold totalForYear. rewrite Hy.
  eexists. split; [reflexivity|]. split.
  - unfold totalGen. rewrite fold_left_Qplus_shift. lra.
  - intros r. apply regionTotal_sum.
Qed.

Lemma totalForYear_sum_regionTotal_witness :
  exists t, totalForYear exData "2023" = Ok t /\
            t == Qsum (map (regionTotal (sources exData)) [exA; exB]) /\
            forall r, regionTotal (sources exData) r
                      == Qsum (map (get_or_zero r) (sources exData)).
Proof.
  apply (totalForYear_sum_regionTotal exData "2023" [exA; exB]).
  vm_compute; reflexivity.
Defined.

(** ** Selection of a year *)

(** C1, as the script has it: [filterByYear] checks nothing before it
    writes.  For a year that is not a key of the regional mapping it has
    already stored the year in [currentYear] and rewritten the year and
    feature statistics when the read of the year's regions raises a
    [TypeError]; nothing after that point runs. *)
Theorem filterByYear_unknown_year (s : State) (data : Dataset)
    (year : string) :
  globalData s = Some data ->
  regional data !! year = None ->
  filterByYear year s =
    (Err TypeError,
     set_statFeature (featureOf year)
       (set_statYear (year +:+ "년") (set_currentYear year s))).
Proof.
  intros Hd Hy.
  unfold filterByYear, bind, modify, readData, bind, gets, lift. simpl.
  rewrite Hd. simpl. unfold totalForYear. rewrite Hy. reflexivity.
Qed.

Lemma filterByYear_unknown_year_witness :
  filterByYear "1999" exState =
    (Err TypeError,
     set_statFeature (featureOf "1999")
       (set_statYear ("1999" +:+ "년") (set_currentYear "1999" exState))).
Proof.
  apply (filterByYear_unknown_year exState exData "1999");
    vm_compute; reflexivity.
Defined.

(** C1 fails as stated: on the example page, selecting the unknown year
    1999 raises and leaves 1999 in [currentYear]. *)
Lemma filterByYear_unknown_year_changes_state :
  regional exData !! "1999" = None /\
  currentYear exState = "2023" /\
  fst (filterByYear "1999" exState) = Err TypeError /\
  currentYear (snd (filterByYear "1999" exState)) = "1999" /\
  snd (filterByYear "1999" exState) <> exState.
Proof.
  repeat split; try (vm_compute; reflexivity).
  intros H. apply (f_equal currentYear) in H. vm_compute in H. discriminate.
Qed.

(** *** A known year *)

Lemma mapR_all_ok {A B} (f : A -> B) (l : list A) :
  mapR (fun x => Ok (f x)) l = Ok (map f l).
Proof.
  induction l as [|x l IH]; [reflexivity|]. simpl. now rewrite IH.
Qed.

Lemma sourceMixTotals_known_year (data : Dataset) (year : string)
    (regs : list RegionRecord) :
  regional data !! year = Some regs ->
  sourceMixTotals data year = Ok (map (sourceTotal regs) (sources data)).
Proof.
  intros Hy. unfold sourceMixTotals. rewrite Hy. apply mapR_all_ok.
Qed.

Ltac step_state :=
  cbn [currentYear globalData sourceSelect heatmapBtn statYear statFeature
       statTotal charts_regional charts_mix charts_share charts_detail
       detailView set_currentYear set_statYear set_statFeature set_statTotal
       set_charts_regional set_charts_mix set_charts_share set_charts_detail
       set_detailView set_heatmapBtn option_map].

(** For a year of the regional mapping the handler runs to its end: the
    year is selected, the three statistics and the three charts are
    rewritten, and the detail view shows the heatmap when its button is
    active and the ranking otherwise. *)
Lemma filterByYear_known_year (s : State) (data : Dataset) (year : string)
    (regs : list RegionRecord) :
  globalData s = Some data ->
  regional data !! year = Some regs ->
  exists s',
    filterByYear year s = (Ok tt, s') /\
    currentYear s' = year /\
    globalData s' = Some data /\
    statTotal s' = Some (Math_round (totalGen (sources data) regs)) /\
    charts_mix s'
    = Some (mkMix (sources data) (map (sourceTotal regs) (sources data))
              (imap (fun i _ => hue i) (sources data))) /\
    detailView s'
    = match heatmapBtn s with
      | Some true =>
          DetailTable
            (mkHeatmap (sources data) (heatmapRows (sources data) regs))
      | _ => DetailCanvas
      end.
Proof.
  intros Hd Hy.
  assert (Hmix := sourceMixTotals_known_year data year regs Hy).
  destruct s as [cy gd ss hb sy sf st cr cm cs cd dv].
  simpl in Hd. subst gd.
  unfold filterByYear, renderRegionalChart, renderMixChart,
    renderRegionalShareChart, showHeatmap, updateRankingTable,
    bind, modify, readData, bind, gets, lift, ret, throw,
    totalForYear, regionalChart, sortedRegions, topRegions, mixChart,
    shareChart, regionShareTotals, rankingChart, rankBySource, heatmap.
  repeat (rewrite ?Hy, ?Hmix; progress step_state).
  destruct hb as [[|]|]; step_state; rewrite ?Hy;
    eexists; repeat split; reflexivity.
Qed.

(** ** Unknown years and sources *)

Lemma mapR_all_fail {A B} (e : error) (l : list A) :
  l <> [] -> mapR (fun _ : A => @Err B e) l = Err e.
Proof. destruct l; [congruence | reflexivity]. Qed.

Section ConstantKeys.
Context {A : Type} (key : A -> Q).

(** Sorting entries that all carry the key 0 moves nothing. *)
Lemma js_sort_constant (l : list A) :
  Forall (fun a => key a = 0) l ->
  js_sort (fun a b => key b - key a) l = l.
Proof.
  induction 1 as [|x l Hx Hl IH]; [reflexivity|].
  change (js_sort (fun a b => key b - key a) (x :: l))
    with (insert_sorted (fun a b => key b - key a) x
            (js_sort (fun a b => key b - key a) l)).
  rewrite IH.
  destruct Hl as [|y l' Hy _]; [reflexivity|].
  simpl. rewrite Hx, Hy. reflexivity.
Qed.
End ConstantKeys.

Lemma rank_entries_absent_source (source : string)
    (regs : list RegionRecord) :
  Forall (fun r => prop r source = None) regs ->
  map (fun r => mkRank (region r) (get_or_zero r source)) regs
  = map (fun r => mkRank (region r) 0) regs.
Proof.
  induction 1 as [|r l Hr _ IH]; [reflexivity|].
  simpl. unfold get_or_zero at 1. rewrite Hr, IH. reflexivity.
Qed.

(** On a name that is neither ["region"] nor inherited, the numeric read
    is the whole read; a read that gives [undefined] is a numeric gap. *)
Lemma prop_readProp (r : RegionRecord) (s : string) :
  s <> "region" ->
  existsb (String.eqb s) objectPrototypeNames = false ->
  readProp r s = match prop r s with
                 | Some v => VNumber v
                 | None => VUndefined
                 end.
Proof.
  intros Hs Hp. unfold readProp, prop.
  apply String.eqb_neq in Hs. rewrite Hs, Hp. reflexivity.
Qed.

Lemma readProp_undefined (r : RegionRecord) (s : string) :
  readProp r s = VUndefined -> prop r s = None.
Proof.
  unfold readProp, prop.
  destruct (String.eqb s "region"); [discriminate|].
  destruct (gen r !! s); [discriminate | reflexivity].
Qed.

(** C3, as the script has it.  A year that is not a key of the regional
    mapping makes every aggregation raise the runtime's [TypeError] (the
    per-source totals only when there is at least one source to iterate
    over); the script has no error kind of its own.  A source is never
    checked: ranking a known year by a source for which [r[source]] is
    [undefined] in every record (a name that no record carries and that
    is neither ["region"] nor a member every object inherits) succeeds and
    gives every region the value 0, in input order. *)
Theorem unknown_year_or_source (data : Dataset) (badYear year : string)
    (regs : list RegionRecord) (n : nat) (source badSource : string) :
  regional data !! badYear = None ->
  regional data !! year = Some regs ->
  Forall (fun r => readProp r badSource = VUndefined) regs ->
  totalForYear data badYear = Err TypeError /\
  topRegions data badYear n = Err TypeError /\
  rankBySource data badYear source = Err TypeError /\
  regionShareTotals data badYear = Err TypeError /\
  heatmap data badYear = Err TypeError /\
  (sources data <> [] -> sourceMixTotals data badYear = Err TypeError) /\
  rankBySource data year badSource =
    Ok (map (fun r => mkRank (region r) 0) regs).
Proof.
  intros Hbad Hy Hundef.
  assert (Hs : Forall (fun r => prop r badSource = None) regs).
  { eapply Forall_impl; [exact Hundef|].
    intros r Hr. now apply readProp_undefined. }
  unfold totalForYear, topRegions, rankBySource, regionShareTotals, heatmap,
    sourceMixTotals.
  rewrite Hbad, Hy. repeat (split; [reflexivity|]). split.
  - intros Hne. apply (mapR_all_fail TypeError (sources data) Hne).
  - f_equal. rewrite (rank_entries_absent_source badSource regs Hs).
    apply (js_sort_constant val).
    clear. induction regs; constructor; auto.
Qed.

Lemma unknown_year_or_source_witness :
  totalForYear exData "1999" = Err TypeError /\
  topRegions exData "1999" 5 = Err TypeError /\
  rankBySource exData "1999" "solar" = Err TypeError /\
  regionShareTotals exData "1999" = Err TypeError /\
  heatmap exData "1999" = Err TypeError /\
  (sources exData <> [] -> sourceMixTotals exData "1999" = Err TypeError) /\
  rankBySource exData "2023" "nuclear" =
    Ok (map (fun r => mkRank (region r) 0) [exA; exB]).
Proof.
  apply (unknown_year_or_source exData "1999" "2023" [exA; exB] 5
           "solar" "nuclear").
  - vm_compute; reflexivity.
  - vm_compute; reflexivity.
  - repeat constructor; vm_compute; reflexivity.
Defined.

(** C3 fails as stated: a source outside the source list is not rejected,
    the ranking is computed with every value defaulted to 0. *)
Lemma rankBySource_unknown_source_succeeds :
  ~ In "nuclear" (sources exData) /\
  rankBySource exData "2023" "nuclear" = Ok [mkRank "A" 0; mkRank "B" 0].
Proof.
  split.
  - simpl. intros [H | [H | []]]; discriminate.
  - vm_compute. reflexivity.
Qed.

(** ** Ranking *)

Section SortDescending.
Context {A : Type} (key : A -> Q).

Let cmp : A -> A -> Q := fun a b => key b - key a.

Lemma cmp_le_iff (x y : A) : Qle_bool (cmp x y) 0 = true <-> key y <= key x.
Proof. unfold cmp. rewrite Qle_bool_iff. split; intros; lra. Qed.

Lemma insert_sorted_perm (x : A) (l : list A) :
  Permutation (insert_sorted cmp x l) (x :: l).
Proof.
  induction l as [|y l IH]; simpl; [reflexivity|].
  destruct (Qle_bool (cmp x y) 0); [reflexivity|].
  rewrite IH. apply perm_swap.
Qed.

Lemma js_sort_perm (l : list A) : Permutation (js_sort cmp l) l.
Proof.
  induction l as [|x l IH]; [reflexivity|].
  change (js_sort cmp (x :: l)) with (insert_sorted cmp x (js_sort cmp l)).
  rewrite insert_sorted_perm. now constructor.
Qed.

Lemma insert_sorted_desc (x : A) (l : list A) :
  descending key l -> descending key (insert_sorted cmp x l).
Proof.
  unfold descending.
  induction 1 as [|y l Hl IH Hy]; simpl.
  - repeat constructor.
  - destruct (Qle_bool (cmp x y) 0) eqn:E.
    + apply cmp_le_iff in E.
      constructor; [now constructor|].
      constructor; [exact E|].
      eapply Forall_impl; [exact Hy|]. simpl. intros z Hz. lra.
    + assert (Hxy : key x <= key y).
      { destruct (Qlt_le_dec (key y) (key x)) as [Hlt|Hle]; [|exact Hle].
        assert (Qle_bool (cmp x y) 0 = true) by (apply cmp_le_iff; lra).
        congruence. }
      constructor; [exact IH|].
      eapply Permutation_Forall; [symmetry; apply insert_sorted_perm|].
      constructor; assumption.
Qed.

Lemma js_sort_desc (l : list A) : descending key (js_sort cmp l).
Proof.
  induction l as [|x l IH]; [constructor|].
  change (js_sort cmp (x :: l)) with (insert_sorted cmp x (js_sort cmp l)).
  now apply insert_sorted_desc.
Qed.

Lemma insert_sorted_filter (k : Q) (x : A) (l : list A) :
  withKey key k (insert_sorted cmp x l) = withKey key k (x :: l).
Proof.
  unfold withKey.
  induction l as [|y l IH]; [reflexivity|].
  simpl insert_sorted.
  destruct (Qle_bool (cmp x y) 0) eqn:E; [reflexivity|].
  assert (Hne : ~ key y <= key x).
  { intros H. apply cmp_le_iff in H. congruence. }
  cbn [List.filter]. rewrite IH. cbn [List.filter].
  destruct (Qeq_bool (key x) k) eqn:Ex; [|reflexivity].
  destruct (Qeq_bool (key y) k) eqn:Ey; [|reflexivity].
  apply Qeq_bool_iff in Ex, Ey. exfalso. apply Hne. lra.
Qed.

Lemma js_sort_stable (k : Q) (l : list A) :
  withKey key k (js_sort cmp l) = withKey key k l.
Proof.
  induction l as [|x l IH]; [reflexivity|].
  change (js_sort cmp (x :: l)) with (insert_sorted cmp x (js_sort cmp l)).
  rewrite insert_sorted_filter. unfold withKey in *.
  cbn [List.filter]. now rewrite IH.
Qed.
End SortDescending.


(** C4: for a year of the regional mapping, [topRegions] returns the first
    [n] entries of the full ranking, and the full ranking is the stable
    descending arrangement of the year's regions by region total: it is a
    permutation of them, it is in descending order of the totals, and for
    every total the regions that have it appear in their input order.  The
    returned list has [min n regionCount] entries.  (The script asks for
    [n = 5].) *)
Theorem topRegions_stable_prefix (data : Dataset) (year : string) (n : nat)
    (regs : list RegionRecord) :
  regional data !! year = Some regs ->
  let rt := regionTotal (sources data) in
  let ranking := fullRanking (sources data) regs in
  topRegions data year n = Ok (take n ranking) /\
  Permutation ranking regs /\
  descending rt ranking /\
  (forall k, withKey rt k ranking = withKey rt k regs) /\
  length (take n ranking) = Nat.min n (length regs).
Proof.
  intros Hy rt ranking.
  assert (Hperm : Permutation ranking regs) by apply (js_sort_perm rt).
  repeat split.
  - unfold topRegions. now rewrite Hy.
  - exact Hperm.
  - apply (js_sort_desc rt).
  - intros k. apply (js_sort_stable rt).
  - rewrite length_take. now rewrite (Permutation_length Hperm).
Qed.

Lemma topRegions_stable_prefix_witness :
  let rt := regionTotal (sources exData) in
  let ranking := fullRanking (sources exData) [exA; exB] in
  topRegions exData "2023" 5 = Ok (take 5 ranking) /\
  Permutation ranking [exA; exB] /\
  descending rt ranking /\
  (forall k, withKey rt k ranking = withKey rt k [exA; exB]) /\
  length (take 5 ranking) = Nat.min 5 (length [exA; exB]).
Proof.
  apply (topRegions_stable_prefix exData "2023" 5 [exA; exB]).
  vm_compute; reflexivity.
Defined.

(** The same arrangement holds for the other two sorted views: the ranking
    by one source and the region shares are never truncated. *)
Lemma rankBySource_stable (data : Dataset) (year source : string)
    (regs : list RegionRecord) :
  regional data !! year = Some regs ->
  exists ranking,
    rankBySource data year source = Ok ranking /\
    Permutation ranking
      (map (fun r => mkRank (region r) (get_or_zero r source)) regs) /\
    descending val ranking /\
    (forall k, withKey val k ranking
               = withKey val k
                   (map (fun r => mkRank (region r) (get_or_zero r source))
                      regs)) /\
    length ranking = length regs.
Proof.
  intros Hy. unfold rankBySource. rewrite Hy.
  eexists. split; [reflexivity|].
  split; [apply (js_sort_perm val)|].
  split; [apply (js_sort_desc val)|].
  split; [intros k; apply (js_sort_stable val)|].
  rewrite (Permutation_length (js_sort_perm val _)). apply length_map.
Qed.

Lemma regionShareTotals_stable (data : Dataset) (year : string)
    (regs : list RegionRecord) :
  regional data !! year = Some regs ->
  exists shares,
    regionShareTotals data year = Ok shares /\
    Permutation shares
      (map (fun r => mkShare (region r) (regionTotal (sources data) r))
         regs) /\
    descending total shares /\
    (forall k, withKey total k shares
               = withKey total k
                   (map (fun r =>
                           mkShare (region r) (regionTotal (sources data) r))
                      regs)).
Proof.
  intros Hy. unfold regionShareTotals. rewrite Hy.
  eexists. split; [reflexivity|].
  split; [apply (js_sort_perm total)|].
  split; [apply (js_sort_desc total)|].
  intros k; apply (js_sort_stable total).
Qed.

(** ** Percentage labels *)

Lemma Qlt_bool_iff (x y : Q) : Qlt_bool x y = true <-> x < y.
Proof.
  unfold Qlt_bool. rewrite negb_true_iff.
  split.
  - intros H. apply Qnot_le_lt. intros Hle.
    apply Qle_bool_iff in Hle. congruence.
  - intros H. destruct (Qle_bool y x) eqn:E; [|reflexivity].
    apply Qle_bool_iff in E. lra.
Qed.

Lemma Qlt_bool_false_iff (x y : Q) : Qlt_bool x y = false <-> y <= x.
Proof.
  split.
  - intros H. apply Qnot_lt_le. intros Hlt.
    apply Qlt_bool_iff in Hlt. congruence.
  - intros H. destruct (Qlt_bool x y) eqn:E; [|reflexivity].
    apply Qlt_bool_iff in E. lra.
Qed.

Lemma Qeq_bool_false_iff (x y : Q) : Qeq_bool x y = false <-> ~ x == y.
Proof.
  split.
  - intros H Heq. apply Qeq_bool_iff in Heq. congruence.
  - intros H. destruct (Qeq_bool x y) eqn:E; [|reflexivity].
    apply Qeq_bool_iff in E. contradiction.
Qed.

Lemma tenths_bounds (q : Q) :
  inject_Z (tenths q) <= Qabs q * 10 + (1 # 2) /\
  Qabs q * 10 + (1 # 2) < inject_Z (tenths q) + 1.
Proof.
  unfold tenths. split.
  - apply Qfloor_le.
  - pose proof (Qlt_floor (Qabs q * 10 + (1 # 2))) as H.
    rewrite inject_Z_plus in H. exact H.
Qed.

Lemma tenths_nonneg (q : Q) : (0 <= tenths q)%Z.
Proof.
  unfold tenths.
  change 0%Z with (Qfloor 0). apply Qfloor_resp_le.
  pose proof (Qabs_nonneg q). lra.
Qed.

(** *** [toFixed(1)] and the number its string converts to *)

Lemma digitValue_char (d : N) :
  (d < 10)%N -> digitValue (pretty_N_char d) = Some d.
Proof.
  intros H.
  assert (d = 0 \/ d = 1 \/ d = 2 \/ d = 3 \/ d = 4 \/ d = 5 \/ d = 6
          \/ d = 7 \/ d = 8 \/ d = 9)%N as Hd by lia.
  repeat (destruct Hd as [-> | Hd]; [reflexivity|]). subst. reflexivity.
Qed.

Lemma pretty_char_not_dot (d : N) : pretty_N_char d <> "."%char.
Proof. unfold pretty_N_char. repeat case_match; discriminate. Qed.

Lemma parseUnsigned_digits (x : N) :
  forall (s : string) (acc : N) (seen : bool),
    (0 < x)%N ->
    exists k : N,
      parseUnsigned (pretty_N_go x s) acc seen
      = parseUnsigned s (acc * 10 ^ k + x) true.
Proof.
  induction (N.lt_wf_0 x) as [x _ IH]. intros s acc seen Hx.
  rewrite pretty_N_go_step by exact Hx.
  assert (Hmod : (x `mod` 10 < 10)%N) by (apply N.mod_lt; lia).
  destruct (decide (x `div` 10 = 0)%N) as [E | E].
  - rewrite E, pretty_N_go_0. exists 1%N. simpl.
    rewrite decide_False by apply pretty_char_not_dot.
    rewrite digitValue_char by exact Hmod.
    f_equal. rewrite N.pow_1_r.
    pose proof (N.div_mod x 10 ltac:(lia)) as H. rewrite E in H.
    rewrite H at 2. lia.
  - destruct (IH (x `div` 10)%N ltac:(apply N.div_lt; lia)
                (String (pretty_N_char (x `mod` 10)) s) acc seen
                (proj1 (N.neq_0_lt_0 _) E))
      as (k & Hk).
    exists (k + 1)%N. rewrite Hk. simpl.
    rewrite decide_False by apply pretty_char_not_dot.
    rewrite digitValue_char by exact Hmod.
    f_equal. rewrite N.pow_add_r, N.pow_1_r.
    pose proof (N.div_mod x 10 ltac:(lia)) as H.
    rewrite H at 3. generalize (x `div` 10)%N (x `mod` 10)%N (10 ^ k)%N.
    intros a b c. lia.
Qed.

Lemma append_assoc (s1 s2 s3 : string) :
  (s1 +:+ s2) +:+ s3 = s1 +:+ s2 +:+ s3.
Proof.
  induction s1 as [|a s1 IH]; [reflexivity|].
  change (String a ((s1 +:+ s2) +:+ s3) = String a (s1 +:+ s2 +:+ s3)).
  now rewrite IH.
Qed.

Lemma pretty_N_go_app (x : N) :
  forall s : string, pretty_N_go x s = pretty_N_go x "" +:+ s.
Proof.
  induction (N.lt_wf_0 x) as [x _ IH]. intros s.
  destruct (decide (x = 0)%N) as [-> | Hx].
  - reflexivity.
  - assert (Hpos : (0 < x)%N) by (apply N.neq_0_lt_0; exact Hx).
    rewrite (pretty_N_go_step x s), (pretty_N_go_step x "") by exact Hpos.
    assert (Hlt : (x `div` 10 < x)%N)
      by (apply N.div_lt; [exact Hpos | reflexivity]).
    rewrite (IH _ Hlt (String _ s)), (IH _ Hlt (String _ "")).
    rewrite append_assoc. reflexivity.
Qed.

Lemma pretty_digit (d : N) :
  (d < 10)%N -> pretty d = String (pretty_N_char d) "".
Proof.
  intros H.
  assert (d = 0 \/ d = 1 \/ d = 2 \/ d = 3 \/ d = 4 \/ d = 5 \/ d = 6
          \/ d = 7 \/ d = 8 \/ d = 9)%N as Hd by lia.
  repeat (destruct Hd as [-> | Hd]; [reflexivity|]). subst. reflexivity.
Qed.

(** A printed natural number starts with a digit. *)
Lemma pretty_N_go_first (x : N) :
  forall s : string,
    (0 < x)%N ->
    exists d rest, (d < 10)%N /\ pretty_N_go x s = String (pretty_N_char d) rest.
Proof.
  induction (N.lt_wf_0 x) as [x _ IH]. intros s Hx.
  rewrite pretty_N_go_step by exact Hx.
  destruct (decide (x `div` 10 = 0)%N) as [E | E].
  - rewrite E, pretty_N_go_0. exists (x `mod` 10)%N, s. split; [|reflexivity].
    apply N.mod_lt. discriminate.
  - apply IH; [apply N.div_lt; [exact Hx | reflexivity]|].
    apply N.neq_0_lt_0. exact E.
Qed.

Lemma pretty_first (n : N) (s : string) :
  exists d rest, (d < 10)%N /\ pretty n +:+ s = String (pretty_N_char d) rest.
Proof.
  unfold pretty, pretty_N. destruct (decide (n = 0)%N) as [-> | Hn].
  - exists 0%N, s. split; [reflexivity | reflexivity].
  - rewrite <- pretty_N_go_app. apply pretty_N_go_first.
    apply N.neq_0_lt_0. exact Hn.
Qed.

Lemma parseUnsigned_pretty (n : N) (s : string) :
  parseUnsigned (pretty n +:+ s) 0 false = parseUnsigned s n true.
Proof.
  unfold pretty, pretty_N. destruct (decide (n = 0)%N) as [-> | Hn].
  - reflexivity.
  - rewrite <- pretty_N_go_app.
    destruct (parseUnsigned_digits n s 0 false) as (k & Hk).
    { apply N.neq_0_lt_0. exact Hn. }
    rewrite Hk. reflexivity.
Qed.

Lemma ToNumber_unsigned (d : N) (rest : string) :
  (d < 10)%N ->
  ToNumber (String (pretty_N_char d) rest)
  = match parseUnsigned (String (pretty_N_char d) rest) 0 false with
    | Some p => Num (ratio p)
    | None => NaN
    end.
Proof.
  intros H.
  assert (d = 0 \/ d = 1 \/ d = 2 \/ d = 3 \/ d = 4 \/ d = 5 \/ d = 6
          \/ d = 7 \/ d = 8 \/ d = 9)%N as Hd by lia.
  unfold ToNumber.
  repeat (destruct Hd as [-> | Hd];
          [rewrite !decide_False by discriminate; reflexivity|]).
  subst. rewrite !decide_False by discriminate; reflexivity.
Qed.

Lemma ToNumber_negative (d : N) (rest : string) :
  (d < 10)%N ->
  ToNumber (String "-" (String (pretty_N_char d) rest))
  = match parseUnsigned (String (pretty_N_char d) rest) 0 false with
    | Some p => Num (- ratio p)
    | None => NaN
    end.
Proof.
  intros H.
  assert (d = 0 \/ d = 1 \/ d = 2 \/ d = 3 \/ d = 4 \/ d = 5 \/ d = 6
          \/ d = 7 \/ d = 8 \/ d = 9)%N as Hd by lia.
  unfold ToNumber.
  repeat (destruct Hd as [-> | Hd];
          [rewrite !decide_False by discriminate; reflexivity|]).
  subst. rewrite !decide_False by discriminate; reflexivity.
Qed.

Lemma parse_fixed (n : N) :
  parseUnsigned (pretty (n `div` 10)%N +:+ "." +:+ pretty (n `mod` 10)%N)
    0 false
  = Some (n, 10%N).
Proof.
  rewrite parseUnsigned_pretty.
  assert (Hmod : (n `mod` 10 < 10)%N) by (apply N.mod_lt; discriminate).
  rewrite (pretty_digit _ Hmod). simpl.
  rewrite digitValue_char by exact Hmod.
  f_equal. f_equal.
  pose proof (N.div_mod n 10 ltac:(discriminate)) as H.
  rewrite H at 3. generalize (n `div` 10)%N (n `mod` 10)%N. intros a b. lia.
Qed.

(** The string [toFixed(1)] prints converts back to the number rounded to
    one decimal place. *)
Lemma ToNumber_toFixed1 (q : Q) :
  exists r, ToNumber (toFixed1 (Num q)) = Num r /\ r == roundTo1 q.
Proof.
  unfold toFixed1, roundTo1.
  set (n := Z.to_N (tenths q)).
  assert (Hn : inject_Z (Z.of_N n) = inject_Z (tenths q)).
  { unfold n. rewrite Z2N.id by apply tenths_nonneg. reflexivity. }
  destruct (pretty_first (n `div` 10)%N ("." +:+ pretty (n `mod` 10)%N))
    as (d & rest & Hd & E).
  pose proof (parse_fixed n) as Hp. rewrite E in Hp.
  destruct (Qlt_bool q 0).
  - change ("-" +:+ ?s) with (String "-" s). rewrite E.
    rewrite (ToNumber_negative d rest Hd), Hp.
    eexists. split; [reflexivity|].
    unfold ratio. simpl fst. simpl snd. rewrite Hn.
    change (inject_Z (Z.of_N 10)) with 10. unfold Qdiv. ring.
  - change ("" +:+ ?s) with s. rewrite E.
    rewrite (ToNumber_unsigned d rest Hd), Hp.
    eexists. split; [reflexivity|].
    unfold ratio. simpl fst. simpl snd. rewrite Hn. reflexivity.
Qed.

Lemma roundTo1_close (q : Q) :
  q - (1 # 20) <= roundTo1 q /\ roundTo1 q <= q + (1 # 20).
Proof.
  unfold roundTo1.
  destruct (tenths_bounds q) as [Hlo Hhi].
  destruct (Qlt_bool q 0) eqn:E.
  - apply Qlt_bool_iff in E.
    rewrite (Qabs_neg q) in Hlo, Hhi by lra.
    unfold Qdiv. change (/ 10) with (1 # 10). split; lra.
  - apply Qlt_bool_false_iff in E.
    rewrite (Qabs_pos q) in Hlo, Hhi by lra.
    unfold Qdiv. change (/ 10) with (1 # 10). split; lra.
Qed.

(** [toFixed(1)] moves a finite number by at most one twentieth. *)
Lemma percentage_close (q : Q) :
  exists r, ToNumber (toFixed1 (Num q)) = Num r /\
            q - (1 # 20) <= r /\ r <= q + (1 # 20).
Proof.
  destruct (ToNumber_toFixed1 q) as (r & Hr & Heq).
  exists r. split; [exact Hr|].
  destruct (roundTo1_close q) as [Hlo Hhi]. rewrite Heq. split; lra.
Qed.

Lemma visibleSumFrom_values (vis : nat -> bool) (l : list Q) (i : nat)
    (acc : Q) :
  visibleSumFrom vis i l acc == acc + Qsum (visibleValues vis i l).
Proof.
  revert i acc. induction l as [|d l IH]; intros i acc; simpl.
  - lra.
  - rewrite IH. destruct (vis i); simpl; lra.
Qed.

Lemma visibleSum_values (vis : nat -> bool) (l : list Q) :
  visibleSum vis l == Qsum (visibleValues vis 0 l).
Proof. unfold visibleSum. rewrite visibleSumFrom_values. lra. Qed.

Lemma rawPercent_finite (value : Q) (dataArr : list Q) (vis : nat -> bool) :
  ~ visibleSum vis dataArr == 0 ->
  rawPercent value dataArr vis = Num (value * 100 / visibleSum vis dataArr).
Proof.
  intros H. unfold rawPercent, js_div.
  apply Qeq_bool_false_iff in H. now rewrite H.
Qed.

Lemma percentSumFrom_close (values : list Q) (vis : nat -> bool) :
  ~ visibleSum vis values == 0 ->
  forall (rest : list Q) (i : nat),
    drop i values = rest ->
    exists t,
      percentSumFrom values vis i rest = Num t /\
      let exact := Qsum (visibleValues vis i rest) * 100
                   / visibleSum vis values in
      let slack := (1 # 20)
                   * inject_Z (Z.of_nat (length (visibleValues vis i rest))) in
      exact - slack <= t /\ t <= exact + slack.
Proof.
  intros HS rest. induction rest as [|d rest IH]; intros i Hdrop.
  - exists 0. split; [reflexivity|]. cbn [visibleValues Qsum length].
    unfold Qdiv. generalize (/ visibleSum vis values). intros c.
    change (inject_Z (Z.of_nat 0)) with 0. split; lra.
  - assert (Hi : values !! i = Some d).
    { pose proof (lookup_drop values i 0) as H. rewrite Hdrop in H.
      simpl in H. rewrite Nat.add_0_r in H. now symmetry. }
    assert (Hrest : drop (S i) values = rest).
    { replace (S i) with (i + 1)%nat by lia.
      rewrite <- drop_drop, Hdrop. reflexivity. }
    destruct (IH (S i) Hrest) as (t & Ht & Hlo & Hhi).
    simpl percentSumFrom. simpl visibleValues.
    destruct (vis i) eqn:Ev.
    + unfold visibleSharePercent. rewrite Hi.
      rewrite (rawPercent_finite d values vis HS).
      destruct (percentage_close (d * 100 / visibleSum vis values))
        as (r & Hr & Hrlo & Hrhi).
      rewrite Hr, Ht. exists (r + t). split; [reflexivity|].
      cbn zeta in *. cbn [Qsum length].
      rewrite Nat2Z.inj_succ, <- Z.add_1_r, inject_Z_plus.
      change (inject_Z 1) with 1.
      unfold Qdiv in *. revert Hlo Hhi Hrlo Hrhi.
      generalize (/ visibleSum vis values). intros c Hlo Hhi Hrlo Hrhi.
      split; lra.
    + exists t. split; [exact Ht|]. exact (conj Hlo Hhi).
Qed.

(** C8: whenever the visible sum is positive, the percentages of the
    visible entries, each rounded to one decimal place, add up to 100 up to
    the rounding tolerance of one twentieth per visible entry.  (The
    values need not even be non-negative for this.) *)
Theorem visibleSharePercent_sum_100 (values : list Q) (vis : nat -> bool) :
  0 < visibleSum vis values ->
  exists t,
    percentSum values vis = Num t /\
    Qabs (t - 100)
    <= (1 # 20) * inject_Z (Z.of_nat (visibleCount vis values)).
Proof.
  intros Hpos.
  assert (HS : ~ visibleSum vis values == 0) by lra.
  destruct (percentSumFrom_close values vis HS values 0 eq_refl)
    as (t & Ht & Hlo & Hhi).
  exists t. split; [exact Ht|].
  cbn zeta in *. unfold visibleCount.
  assert (Hex : Qsum (visibleValues vis 0 values) * 100 / visibleSum vis values
                == 100).
  { rewrite <- visibleSum_values. field. exact HS. }
  rewrite Hex in Hlo, Hhi.
  apply Qabs_Qle_condition. split; lra.
Qed.

Lemma visibleSharePercent_sum_100_witness :
  exists t,
    percentSum [150; 50] allVisible = Num t /\
    Qabs (t - 100)
    <= (1 # 20) * inject_Z (Z.of_nat (visibleCount allVisible [150; 50])).
Proof.
  apply (visibleSharePercent_sum_100 [150; 50] allVisible). reflexivity.
Defined.

Lemma Qsum_nonneg (l : list Q) : Forall (fun v => 0 <= v) l -> 0 <= Qsum l.
Proof. induction 1; simpl; lra. Qed.

Lemma visibleValues_nonneg (vis : nat -> bool) (l : list Q) (i : nat) :
  Forall (fun v => 0 <= v) l -> Forall (fun v => 0 <= v) (visibleValues vis i l).
Proof.
  intros H. revert i. induction H as [|d l Hd Hl IH]; intros i; simpl.
  - constructor.
  - destruct (vis i); [constructor|]; auto.
Qed.

(** Non-negative entries whose visible sum is 0 are 0 wherever visible. *)
Lemma visible_entry_zero (vis : nat -> bool) (l : list Q) :
  Forall (fun v => 0 <= v) l ->
  forall i j v,
    Qsum (visibleValues vis i l) == 0 ->
    l !! j = Some v -> vis (i + j)%nat = true -> v == 0.
Proof.
  induction 1 as [|d l Hd Hl IH]; intros i j v Hsum Hj Hv.
  - discriminate.
  - pose proof (Qsum_nonneg _ (visibleValues_nonneg vis l (S i) Hl)) as Hrest.
    simpl in Hsum. destruct j as [|j].
    + injection Hj as <-. rewrite Nat.add_0_r in Hv. rewrite Hv in Hsum.
      simpl in Hsum. lra.
    + simpl in Hj. apply (IH (S i) j v); [|exact Hj|].
      * destruct (vis i); simpl in Hsum; lra.
      * replace (S i + j)%nat with (i + S j)%nat by lia. exact Hv.
Qed.

(** The unguarded division: what [value*100 / sum] is when the visible sum
    is 0. *)
Lemma rawPercent_zero_sum (value : Q) (dataArr : list Q) (vis : nat -> bool) :
  visibleSum vis dataArr == 0 ->
  rawPercent value dataArr vis
  = if Qeq_bool value 0 then NaN else if Qlt_bool 0 value then PInf else NInf.
Proof.
  intros H. unfold rawPercent, js_div.
  apply Qeq_bool_iff in H. rewrite H.
  assert (E : Qeq_bool (value * 100) 0 = Qeq_bool value 0).
  { destruct (Qeq_bool value 0) eqn:E.
    - apply Qeq_bool_iff in E. apply Qeq_bool_iff. lra.
    - apply Qeq_bool_false_iff in E. apply Qeq_bool_false_iff. lra. }
  assert (L : Qlt_bool 0 (value * 100) = Qlt_bool 0 value).
  { destruct (Qlt_bool 0 value) eqn:L.
    - apply Qlt_bool_iff in L. apply Qlt_bool_iff. lra.
    - apply Qlt_bool_false_iff in L. apply Qlt_bool_false_iff. lra. }
  now rewrite E, L.
Qed.

(** C2, as the script has it: the division is not guarded.  For
    non-negative values whose visible sum is 0, the percentage of every
    visible entry is [NaN], the result of 0/0, and its label is the empty
    string. *)
Theorem visibleSharePercent_zero_sum (values : list Q) (vis : nat -> bool)
    (index : nat) (value : Q) :
  Forall (fun v => 0 <= v) values ->
  visibleSum vis values == 0 ->
  values !! index = Some value ->
  vis index = true ->
  visibleSharePercent values vis index = NaN /\
  formatter value values vis = "".
Proof.
  intros Hnn Hsum Hi Hv.
  assert (Hz : value == 0).
  { apply (visible_entry_zero vis values Hnn 0 index value); auto.
    now rewrite <- visibleSum_values. }
  unfold visibleSharePercent, formatter. rewrite Hi.
  rewrite (rawPercent_zero_sum value values vis Hsum).
  apply Qeq_bool_iff in Hz. rewrite Hz. split; reflexivity.
Qed.

Lemma visibleSharePercent_zero_sum_witness :
  visibleSharePercent [0; 0] allVisible 1 = NaN /\
  formatter 0 [0; 0] allVisible = "".
Proof.
  apply (visibleSharePercent_zero_sum [0; 0] allVisible 1 0).
  - repeat constructor; discriminate.
  - reflexivity.
  - reflexivity.
  - reflexivity.
Defined.

(** C2 fails as stated: with a visible sum of 0 the result is not 0. *)
Lemma visibleSharePercent_zero_sum_not_zero :
  visibleSum allVisible [0; 0] == 0 /\
  visibleSharePercent [0; 0] allVisible 0 = NaN /\
  forall q, visibleSharePercent [0; 0] allVisible 0 <> Num q.
Proof.
  split; [reflexivity|]. split; [reflexivity|].
  intros q H. vm_compute in H. discriminate.
Qed.

Lemma append_percent_nonempty (s : string) : s +:+ "%" <> "".
Proof. destruct s; discriminate. Qed.

(** C5: the formatter shows the percentage rounded to one decimal place,
    followed by a percent sign, exactly when the rounded percentage is
    strictly greater than 3, and gives the empty string otherwise.  A
    share of exactly 3.0% is hidden and one of 3.1% is shown; the hidden
    entry is still in the data series of the chart. *)
Theorem label_suppression (value : Q) (dataArr : list Q) (vis : nat -> bool)
    (q : Q) :
  rawPercent value dataArr vis = Num q ->
  (exists p,
      ToNumber (toFixed1 (Num q)) = Num p /\
      p == roundTo1 q /\
      (3 < p -> formatter value dataArr vis = toFixed1 (Num q) +:+ "%") /\
      (p <= 3 -> formatter value dataArr vis = "") /\
      (formatter value dataArr vis = "" <-> p <= 3)) /\
  isNum (visibleSharePercent [3; 97] allVisible 0) 3 /\
  formatter 3 [3; 97] allVisible = "" /\
  isNum (visibleSharePercent [31; 969] allVisible 0) (31 # 10) /\
  formatter 31 [31; 969] allVisible = "3.1%" /\
  mixChart exThree "2023" = Ok (mkMix ["solar"; "wind"] [3; 97] [0; 137]%Z) /\
  labelsOf [3; 97] allVisible = [""; "97.0%"].
Proof.
  intros Hraw. split.
  - unfold formatter. rewrite Hraw.
    destruct (ToNumber_toFixed1 q) as (p & Ep & Hp).
    exists p. split; [exact Ep|]. split; [exact Hp|].
    rewrite Ep. unfold js_gt.
    destruct (Qlt_bool 3 p) eqn:E.
    + apply Qlt_bool_iff in E. repeat split.
      * intros Hle. lra.
      * intros H. exfalso. exact (append_percent_nonempty _ H).
      * intros Hle. lra.
    + apply Qlt_bool_false_iff in E. repeat split; auto.
      intros Hlt. lra.
  - repeat split; vm_compute; reflexivity.
Qed.

Lemma label_suppression_witness :
  (exists p,
      ToNumber (toFixed1 (Num (3 * 100 / 100))) = Num p /\
      p == roundTo1 (3 * 100 / 100) /\
      (3 < p -> formatter 3 [3; 97] allVisible
                = toFixed1 (Num (3 * 100 / 100)) +:+ "%") /\
      (p <= 3 -> formatter 3 [3; 97] allVisible = "") /\
      (formatter 3 [3; 97] allVisible = "" <-> p <= 3)) /\
  isNum (visibleSharePercent [3; 97] allVisible 0) 3 /\
  formatter 3 [3; 97] allVisible = "" /\
  isNum (visibleSharePercent [31; 969] allVisible 0) (31 # 10) /\
  formatter 31 [31; 969] allVisible = "3.1%" /\
  mixChart exThree "2023" = Ok (mkMix ["solar"; "wind"] [3; 97] [0; 137]%Z) /\
  labelsOf [3; 97] allVisible = [""; "97.0%"].
Proof.
  apply (label_suppression 3 [3; 97] allVisible (3 * 100 / 100)).
  reflexivity.
Defined.

(** C9: the end-to-end example.  Both regions total 100 and the tie keeps
    A in front of B in the share ranking (and in the top regions); the
    per-source totals are 150 and 50 in the order of the source list; with
    every series visible the percentages are 75.0 and 25.0. *)
Theorem end_to_end_example :
  regionTotal (sources exData) exA = 100 /\
  regionTotal (sources exData) exB = 100 /\
  regionShareTotals exData "2023" = Ok [mkShare "A" 100; mkShare "B" 100] /\
  topRegions exData "2023" 5 = Ok [exA; exB] /\
  sources exData = ["solar"; "wind"] /\
  sourceMixTotals exData "2023" = Ok [150; 50] /\
  isNum (visibleSharePercent [150; 50] allVisible 0) 75 /\
  isNum (visibleSharePercent [150; 50] allVisible 1) 25 /\
  labelsOf [150; 50] allVisible = ["75.0%"; "25.0%"].
Proof. repeat split; vm_compute; reflexivity. Qed.

(** ** Heatmap *)

(** The grid maximum is a number, never below 0, and no cell exceeds it. *)
Lemma maxVal_cell_spec (r : RegionRecord) (s : string) (m : Q) :
  0 <= m ->
  exists m', maxVal_cell r (Some m) s = Some m' /\
             m <= m' /\ get_or_zero r s <= m' /\
             (m' = m \/ m' = get_or_zero r s).
Proof.
  intros Hm. unfold maxVal_cell. simpl.
  destruct (Qlt_bool m (get_or_zero r s)) eqn:E.
  - apply Qlt_bool_iff in E.
    unfold get_or_zero in *. destruct (prop r s) as [v|].
    + exists v. repeat split; auto; lra.
    + lra.
  - apply Qlt_bool_false_iff in E. exists m. repeat split; auto; lra.
Qed.

Lemma maxVal_row_spec (srcs : list string) (r : RegionRecord) (m : Q) :
  0 <= m ->
  exists m', maxVal_row srcs (Some m) r = Some m' /\
             m <= m' /\
             Forall (fun s => get_or_zero r s <= m') srcs /\
             (m' = m \/ exists s, In s srcs /\ m' = get_or_zero r s).
Proof.
  unfold maxVal_row. revert m.
  induction srcs as [|s srcs IH]; intros m Hm; simpl.
  - exists m. repeat split; auto; lra.
  - destruct (maxVal_cell_spec r s m Hm) as (m1 & E1 & Hle1 & Hs1 & Hor1).
    rewrite E1.
    destruct (IH m1 ltac:(lra)) as (m2 & E2 & Hle2 & Hall & Hor2).
    exists m2. split; [exact E2|]. split; [lra|]. split.
    + constructor; [lra | exact Hall].
    + destruct Hor2 as [-> | (s' & Hin & ->)].
      * destruct Hor1 as [-> | ->]; [now left | right; exists s; auto].
      * right. exists s'. auto.
Qed.

Lemma gridMax_from_spec (srcs : list string) (regs : list RegionRecord)
    (m : Q) :
  0 <= m ->
  exists m', fold_left (maxVal_row srcs) regs (Some m) = Some m' /\
             m <= m' /\
             Forall (fun r => Forall (fun s => get_or_zero r s <= m') srcs)
               regs /\
             (m' = m \/
              exists r s, In r regs /\ In s srcs /\ m' = get_or_zero r s).
Proof.
  revert m. induction regs as [|r regs IH]; intros m Hm; simpl.
  - exists m. repeat split; auto; lra.
  - destruct (maxVal_row_spec srcs r m Hm) as (m1 & E1 & Hle1 & Hr & Hor1).
    rewrite E1.
    destruct (IH m1 ltac:(lra)) as (m2 & E2 & Hle2 & Hall & Hor2).
    exists m2. split; [exact E2|]. split; [lra|]. split.
    + constructor; [|exact Hall].
      eapply Forall_impl; [exact Hr|]. simpl. intros s Hs. lra.
    + destruct Hor2 as [-> | (r' & s' & Hin & Hin' & ->)].
      * destruct Hor1 as [-> | (s & Hin & ->)]; [now left|].
        right. exists r, s. auto.
      * right. exists r', s'. auto.
Qed.

Lemma gridMax_spec (srcs : list string) (regs : list RegionRecord) :
  exists m, gridMax srcs regs = Some m /\
            0 <= m /\
            (forall r s, In r regs -> In s srcs -> get_or_zero r s <= m) /\
            (m = 0 \/
             exists r s, In r regs /\ In s srcs /\ m = get_or_zero r s).
Proof.
  destruct (gridMax_from_spec srcs regs 0 ltac:(lra))
    as (m & E & Hle & Hall & Hor).
  exists m. split; [exact E|]. split; [exact Hle|]. split; [|exact Hor].
  intros r s Hr Hs.
  rewrite List.Forall_forall in Hall. specialize (Hall r Hr).
  rewrite List.Forall_forall in Hall. exact (Hall s Hs).
Qed.

Lemma heatmapIntensity_finite (v m : Q) :
  ~ m == 0 ->
  heatmapIntensity v (Some m) = Num ((1 # 10) + v / m * (9 # 10)).
Proof.
  intros H. unfold heatmapIntensity, js_div. simpl.
  apply Qeq_bool_false_iff in H. now rewrite H.
Qed.

Lemma Qle_bool_false_iff (x y : Q) : Qle_bool x y = false <-> y < x.
Proof.
  split.
  - intros H. apply Qnot_le_lt. intros Hle.
    apply Qle_bool_iff in Hle. congruence.
  - intros H. destruct (Qle_bool x y) eqn:E; [|reflexivity].
    apply Qle_bool_iff in E. lra.
Qed.

Lemma intensityOf_cell (v m : Q) :
  0 < m ->
  intensityOf (heatmapCellOf (Some m) v)
  = if Qlt_bool 0 v then (1 # 10) + v / m * (9 # 10) else 0.
Proof.
  intros Hm. unfold heatmapCellOf, intensityOf.
  destruct (Qlt_bool 0 v); [|reflexivity].
  simpl. rewrite heatmapIntensity_finite by lra. reflexivity.
Qed.

Lemma ratio_bounds (v m : Q) : 0 < m -> 0 <= v -> v <= m -> 0 <= v / m <= 1.
Proof.
  intros Hm Hv Hvm. split.
  - apply Qle_shift_div_l; lra.
  - apply Qle_shift_div_r; lra.
Qed.

(** The cell of a value that does not exceed a positive maximum is painted
    with the specified intensity. *)
Lemma heatmapCellOf_meets_spec (v m : Q) :
  0 < m -> v <= m ->
  intensityOf (heatmapCellOf (Some m) v)
    == heatmapIntensity_spec v m (1 # 10) 1 /\
  (v <= 0 -> heatmapCellOf (Some m) v = emptyCell) /\
  (0 < v ->
   backgroundAlpha (heatmapCellOf (Some m) v)
   = Some (Num ((1 # 10) + v / m * (9 # 10)))).
Proof.
  intros Hm Hvm. repeat split.
  - rewrite intensityOf_cell by exact Hm.
    unfold heatmapIntensity_spec, clamp.
    destruct (Qlt_bool 0 v) eqn:E.
    + apply Qlt_bool_iff in E.
      assert (Hr := ratio_bounds v m Hm ltac:(lra) Hvm).
      assert (E1 : Qle_bool v 0 = false) by (apply Qle_bool_false_iff; lra).
      rewrite E1.
      set (x := (1 # 10) + v / m * (1 - (1 # 10))).
      assert (Hx : x == (1 # 10) + v / m * (9 # 10)) by (unfold x; lra).
      assert (E2 : Qlt_bool x 0 = false) by (apply Qlt_bool_false_iff; lra).
      assert (E3 : Qlt_bool 1 x = false) by (apply Qlt_bool_false_iff; lra).
      rewrite E2, E3. lra.
    + apply Qlt_bool_false_iff in E.
      assert (E1 : Qle_bool v 0 = true) by (apply Qle_bool_iff; lra).
      rewrite E1. reflexivity.
  - intros Hle. unfold heatmapCellOf.
    assert (E : Qlt_bool 0 v = false) by (apply Qlt_bool_false_iff; lra).
    now rewrite E.
  - intros Hlt. unfold heatmapCellOf.
    assert (E : Qlt_bool 0 v = true) by (apply Qlt_bool_iff; lra).
    rewrite E. simpl. now rewrite heatmapIntensity_finite by lra.
Qed.

(** The painted intensity does not decrease when the value grows. *)
Lemma heatmapCellOf_monotone (v v' m : Q) :
  0 < m -> v <= v' ->
  intensityOf (heatmapCellOf (Some m) v)
  <= intensityOf (heatmapCellOf (Some m) v').
Proof.
  intros Hm Hvv'.
  assert (Hmono : v / m <= v' / m).
  { unfold Qdiv. apply Qmult_le_compat_r; [exact Hvv'|].
    apply Qlt_le_weak, Qinv_lt_0_compat, Hm. }
  rewrite !intensityOf_cell by exact Hm.
  destruct (Qlt_bool 0 v) eqn:E; destruct (Qlt_bool 0 v') eqn:E'.
  - lra.
  - apply Qlt_bool_iff in E. apply Qlt_bool_false_iff in E'. lra.
  - apply Qlt_bool_iff in E'.
    assert (0 <= v' / m) by (apply Qle_shift_div_l; lra). lra.
  - lra.
Qed.

(** C6: in a heatmap whose maximum [m] is positive, the intensity a cell
    is painted with is the specified one.  Nothing is painted for a value
    that is not positive (intensity 0); a positive value gets
    [0.1 + (value / maxValue) * 0.9], which is the specified formula with
    floor 0.1 and ceiling 1.0 and already lies within the clamp bounds,
    because no cell exceeds the grid maximum; a cell that holds the
    maximum gets 1; and a cell with a larger value never gets a smaller
    intensity. *)
Theorem heatmapIntensity_meets_spec (srcs : list string)
    (regs : list RegionRecord) (m : Q) (r r' : RegionRecord) (s s' : string) :
  gridMax srcs regs = Some m -> 0 < m ->
  In r regs -> In s srcs -> In r' regs -> In s' srcs ->
  let v := get_or_zero r s in
  let v' := get_or_zero r' s' in
  0 <= v -> 0 <= v' ->
  intensityOf (heatmapCell (Some m) r s)
    == heatmapIntensity_spec v m (1 # 10) 1 /\
  (v <= 0 -> heatmapCell (Some m) r s = emptyCell) /\
  (0 < v ->
   backgroundAlpha (heatmapCell (Some m) r s)
   = Some (Num ((1 # 10) + v / m * (9 # 10)))) /\
  (v == m -> intensityOf (heatmapCell (Some m) r s) == 1) /\
  (v <= v' ->
   intensityOf (heatmapCell (Some m) r s)
   <= intensityOf (heatmapCell (Some m) r' s')).
Proof.
  intros Hmax Hm Hr Hs Hr' Hs' v v' Hv Hv'.
  destruct (gridMax_spec srcs regs) as (m0 & E & _ & Hle & _).
  rewrite Hmax in E. injection E as <-.
  pose proof (Hle r s Hr Hs) as Hvm. fold v in Hvm.
  destruct (heatmapCellOf_meets_spec v m Hm Hvm) as (Hspec & Hzero & Hpos).
  unfold heatmapCell. fold v v'.
  split; [exact Hspec|]. split; [exact Hzero|]. split; [exact Hpos|]. split.
  - intros Heq. rewrite intensityOf_cell by exact Hm.
    assert (E : Qlt_bool 0 v = true) by (apply Qlt_bool_iff; lra).
    rewrite E, Heq. field. lra.
  - intros Hvv'. apply heatmapCellOf_monotone; assumption.
Qed.

Lemma heatmapIntensity_meets_spec_witness :
  let v := get_or_zero exB "solar" in
  let v' := get_or_zero exA "solar" in
  intensityOf (heatmapCell (Some 100) exB "solar")
    == heatmapIntensity_spec v 100 (1 # 10) 1 /\
  (v <= 0 -> heatmapCell (Some 100) exB "solar" = emptyCell) /\
  (0 < v ->
   backgroundAlpha (heatmapCell (Some 100) exB "solar")
   = Some (Num ((1 # 10) + v / 100 * (9 # 10)))) /\
  (v == 100 -> intensityOf (heatmapCell (Some 100) exB "solar") == 1) /\
  (v <= v' ->
   intensityOf (heatmapCell (Some 100) exB "solar")
   <= intensityOf (heatmapCell (Some 100) exA "solar")).
Proof.
  apply (heatmapIntensity_meets_spec (sources exData) [exA; exB] 100
           exB exA "solar" "solar").
  - vm_compute; reflexivity.
  - reflexivity.
  - simpl; auto.
  - simpl; auto.
  - simpl; auto.
  - simpl; auto.
  - vm_compute; discriminate.
  - vm_compute; discriminate.
Defined.

(** Every cell of the table is the cell of a value that does not exceed
    the maximum the table was scaled with. *)
Lemma heatmapRows_within_max (srcs : list string)
    (regs : list RegionRecord) :
  exists m,
    gridMax srcs regs = Some m /\ 0 <= m /\
    heatmapRows srcs regs
    = map (fun r =>
             (region r,
              map (fun s => heatmapCellOf (Some m) (get_or_zero r s)) srcs))
        regs /\
    forall r s, In r regs -> In s srcs -> get_or_zero r s <= m.
Proof.
  destruct (gridMax_spec srcs regs) as (m & E & Hm & Hle & _).
  exists m. split; [exact E|]. split; [exact Hm|]. split; [|exact Hle].
  unfold heatmapRows. rewrite E. reflexivity.
Qed.

(** A cell is only painted when the maximum is positive: the division of
    line 504 never has a zero divisor. *)
Lemma heatmap_divisor_positive (srcs : list string)
    (regs : list RegionRecord) (r : RegionRecord) (s : string) :
  In r regs -> In s srcs -> 0 < get_or_zero r s ->
  exists m, gridMax srcs regs = Some m /\ 0 < m.
Proof.
  intros Hr Hs Hpos.
  destruct (gridMax_spec srcs regs) as (m & E & _ & Hle & _).
  exists m. split; [exact E|]. specialize (Hle r s Hr Hs). lra.
Qed.

Lemma maxVal_row_zero (srcs : list string) (r : RegionRecord) :
  (forall s, In s srcs -> get_or_zero r s == 0) ->
  maxVal_row srcs (Some 0) r = Some 0.
Proof.
  unfold maxVal_row. induction srcs as [|s srcs IH]; intros H; [reflexivity|].
  simpl. unfold maxVal_cell at 2. simpl.
  assert (E : Qlt_bool 0 (get_or_zero r s) = false).
  { apply Qlt_bool_false_iff. rewrite (H s) by now left. lra. }
  rewrite E. apply IH. intros s' Hs'. apply H. now right.
Qed.

Lemma gridMax_zero (srcs : list string) (regs : list RegionRecord) :
  (forall r s, In r regs -> In s srcs -> get_or_zero r s == 0) ->
  gridMax srcs regs = Some 0.
Proof.
  unfold gridMax. induction regs as [|r regs IH]; intros H; [reflexivity|].
  simpl. rewrite maxVal_row_zero.
  - apply IH. intros r' s Hr Hs. apply H; [now right | exact Hs].
  - intros s Hs. apply H; [now left | exact Hs].
Qed.

(** C10: when every value of a year is zero or absent, the maximum stays
    at its initial 0 and every cell of the table is the dash cell, without
    background and text colour: the branch that divides by the maximum is
    never entered. *)
Theorem heatmap_all_zero (data : Dataset) (year : string)
    (regs : list RegionRecord) :
  regional data !! year = Some regs ->
  (forall r s, In r regs -> In s (sources data) -> get_or_zero r s == 0) ->
  gridMax (sources data) regs = Some 0 /\
  heatmap data year
  = Ok (mkHeatmap (sources data)
          (map (fun r => (region r, map (fun _ => emptyCell) (sources data)))
             regs)).
Proof.
  intros Hy Hz.
  pose proof (gridMax_zero (sources data) regs Hz) as Hmax.
  split; [exact Hmax|].
  unfold heatmap. rewrite Hy. do 2 f_equal.
  unfold heatmapRows. rewrite Hmax.
  apply List.map_ext_in. intros r Hr. f_equal.
  apply List.map_ext_in. intros s Hs.
  unfold heatmapCell, heatmapCellOf.
  assert (E : Qlt_bool 0 (get_or_zero r s) = false).
  { apply Qlt_bool_false_iff. rewrite (Hz r s Hr Hs). lra. }
  now rewrite E.
Qed.

Lemma heatmap_all_zero_witness :
  gridMax (sources exZero) [exZeroRegion] = Some 0 /\
  heatmap exZero "2023"
  = Ok (mkHeatmap (sources exZero)
          (map (fun r => (region r, map (fun _ => emptyCell) (sources exZero)))
             [exZeroRegion])).
Proof.
  apply (heatmap_all_zero exZero "2023" [exZeroRegion]).
  - vm_compute; reflexivity.
  - intros r s [<- | []] [<- | [<- | []]]; reflexivity.
Defined.


(** ** Colours *)

Lemma hue_mod (i : nat) : hue i = hue (i mod 360).
Proof.
  unfold hue.
  rewrite (Nat.div_mod_eq i 360) at 1.
  rewrite Nat2Z.inj_add, Nat2Z.inj_mul.
  replace ((Z.of_nat 360 * Z.of_nat (i / 360) + Z.of_nat (i mod 360)) * 137)%Z
    with (Z.of_nat (i mod 360) * 137 + (137 * Z.of_nat (i / 360)) * 360)%Z
    by lia.
  apply Z.mod_add. lia.
Qed.

Lemma hue_injective_below (i j : nat) :
  (i < 360)%nat -> (j < 360)%nat -> hue i = hue j -> i = j.
Proof.
  unfold hue. intros Hi Hj H.
  pose proof (Z.div_mod (Z.of_nat i * 137) 360 ltac:(lia)) as Ei.
  pose proof (Z.div_mod (Z.of_nat j * 137) 360 ltac:(lia)) as Ej.
  rewrite H in Ei.
  revert Ei Ej.
  generalize ((Z.of_nat i * 137) / 360)%Z ((Z.of_nat j * 137) / 360)%Z
    ((Z.of_nat j * 137) mod 360)%Z.
  intros a b c Ei Ej. lia.
Qed.

(** The hue of a series, for every index: it is always a proper angle, it
    repeats with period 360 and not earlier (two series have the same hue
    exactly when their indices differ by a multiple of 360), so any two of
    the first 360 series have different hues. *)
Theorem hue_range_injective (i j : nat) :
  (0 <= hue i < 360)%Z /\
  hue (i + 360) = hue i /\
  (hue i = hue j <-> (i mod 360 = j mod 360)%nat) /\
  ((i < 360)%nat -> (j < 360)%nat -> hue i = hue j -> i = j).
Proof.
  split; [unfold hue; apply Z.mod_pos_bound; lia|].
  split.
  { rewrite (hue_mod (i + 360)), (hue_mod i). f_equal.
    replace (i + 360)%nat with (i + 1 * 360)%nat by lia.
    apply Nat.Div0.mod_add. }
  split; [|apply hue_injective_below].
  split.
  - rewrite (hue_mod i), (hue_mod j). intros H.
    apply hue_injective_below; [| |exact H]; apply Nat.mod_upper_bound; lia.
  - intros H. rewrite (hue_mod i), (hue_mod j), H. reflexivity.
Qed.

Lemma hue_range_injective_witness :
  (0 <= hue 400 < 360)%Z /\
  hue (400 + 360) = hue 400 /\
  (hue 400 = hue 40 <-> (400 mod 360 = 40 mod 360)%nat) /\
  hue 1 <> hue 2.
Proof.
  destruct (hue_range_injective 400 40) as (Hr & Hp & Hm & _).
  destruct (hue_range_injective 1 2) as (_ & _ & _ & Hinj).
  repeat (split; [assumption|]).
  intros H. apply Hinj in H; lia.
Defined.

(** ** Totals per source and per region *)

Lemma Qsum_app (l1 l2 : list Q) : Qsum (l1 ++ l2) == Qsum l1 + Qsum l2.
Proof. induction l1 as [|x l1 IH]; simpl; [lra | rewrite IH; lra]. Qed.

Lemma Qsum_perm (l1 l2 : list Q) : Permutation l1 l2 -> Qsum l1 == Qsum l2.
Proof.
  induction 1 as [|x l1 l2 _ IH|x y l|l1 l2 l3 _ IH1 _ IH2]; simpl; lra.
Qed.

Lemma sourceTotal_sum (regs : list RegionRecord) (source : string) :
  sourceTotal regs source == Qsum (map (fun r => get_or_zero r source) regs).
Proof. unfold sourceTotal. rewrite fold_left_Qplus_shift. lra. Qed.

(** Summing by source and then over the sources is summing by region and
    then over the regions. *)
Lemma sum_by_source_by_region (srcs : list string)
    (regs : list RegionRecord) :
  Qsum (map (sourceTotal regs) srcs) == Qsum (map (regionTotal srcs) regs).
Proof.
  induction srcs as [|s srcs IH].
  - simpl. induction regs as [|r regs IHr]; simpl; [lra|].
    rewrite <- IHr. unfold regionTotal. simpl. lra.
  - cbn [map Qsum]. rewrite IH, sourceTotal_sum. clear IH.
    induction regs as [|r regs IHr]; cbn [map Qsum]; [lra|].
    rewrite (regionTotal_sum (s :: srcs) r), (regionTotal_sum srcs r).
    cbn [map Qsum]. lra.
Qed.

(** The doughnut's data: one total per source, in the order of the source
    list, each the sum of that source over the year's regions (absent
    keys being 0); together they add up to the year's total. *)
Theorem sourceMixTotals_partition (data : Dataset) (year : string)
    (regs : list RegionRecord) :
  regional data !! year = Some regs ->
  exists totals,
    sourceMixTotals data year = Ok totals /\
    length totals = length (sources data) /\
    (forall i source,
        sources data !! i = Some source ->
        exists t, totals !! i = Some t /\
                  t == Qsum (map (fun r => get_or_zero r source) regs)) /\
    Qsum totals == totalGen (sources data) regs /\
    visibleSum allVisible totals == totalGen (sources data) regs.
Proof.
  intros Hy. rewrite (sourceMixTotals_known_year data year regs Hy).
  assert (Hsum : Qsum (map (sourceTotal regs) (sources data))
                 == totalGen (sources data) regs).
  { rewrite sum_by_source_by_region. unfold totalGen.
    rewrite fold_left_Qplus_shift. lra. }
  eexists. split; [reflexivity|]. split; [apply length_map|]. split.
  - intros i source Hi. exists (sourceTotal regs source). split.
    + rewrite list_lookup_fmap, Hi. reflexivity.
    + apply sourceTotal_sum.
  - split; [exact Hsum|].
    rewrite visibleSum_values.
    assert (Hall : forall l i, visibleValues allVisible i l = l).
    { induction l as [|x l IH]; intros i; simpl; [reflexivity|].
      now rewrite IH. }
    rewrite Hall. exact Hsum.
Qed.

Lemma sourceMixTotals_partition_witness :
  exists totals,
    sourceMixTotals exData "2023" = Ok totals /\
    length totals = length (sources exData) /\
    (forall i source,
        sources exData !! i = Some source ->
        exists t, totals !! i = Some t /\
                  t == Qsum (map (fun r => get_or_zero r source) [exA; exB])) /\
    Qsum totals == totalGen (sources exData) [exA; exB] /\
    visibleSum allVisible totals == totalGen (sources exData) [exA; exB].
Proof.
  apply (sourceMixTotals_partition exData "2023" [exA; exB]).
  vm_compute; reflexivity.
Defined.

(** The pie's data: one entry per region, carrying the region's name and
    total, in descending order of the totals with ties in input order;
    the entries add up to the year's total. *)
Theorem regionShareTotals_partition (data : Dataset) (year : string)
    (regs : list RegionRecord) :
  regional data !! year = Some regs ->
  exists shares,
    regionShareTotals data year = Ok shares /\
    Permutation shares
      (map (fun r => mkShare (region r) (regionTotal (sources data) r))
         regs) /\
    length shares = length regs /\
    descending total shares /\
    (forall k, withKey total k shares
               = withKey total k
                   (map (fun r =>
                           mkShare (region r) (regionTotal (sources data) r))
                      regs)) /\
    Qsum (map total shares) == totalGen (sources data) regs.
Proof.
  intros Hy.
  destruct (regionShareTotals_stable data year regs Hy)
    as (shares & E & Hperm & Hdesc & Hstable).
  exists shares. split; [exact E|]. split; [exact Hperm|]. split.
  { rewrite (Permutation_length Hperm). apply length_map. }
  split; [exact Hdesc|]. split; [exact Hstable|].
  rewrite (Qsum_perm _ _ (Permutation_map total Hperm)).
  rewrite List.map_map.
  transitivity (Qsum (map (regionTotal (sources data)) regs));
    [reflexivity|].
  unfold totalGen. rewrite fold_left_Qplus_shift. lra.
Qed.

Lemma regionShareTotals_partition_witness :
  exists shares,
    regionShareTotals exData "2023" = Ok shares /\
    Permutation shares
      (map (fun r => mkShare (region r) (regionTotal (sources exData) r))
         [exA; exB]) /\
    length shares = length [exA; exB] /\
    descending total shares /\
    (forall k, withKey total k shares
               = withKey total k
                   (map (fun r =>
                           mkShare (region r) (regionTotal (sources exData) r))
                      [exA; exB])) /\
    Qsum (map total shares) == totalGen (sources exData) [exA; exB].
Proof.
  apply (regionShareTotals_partition exData "2023" [exA; exB]).
  vm_compute; reflexivity.
Defined.

(** The ranking by one source lists every region once, with the value
    [r[source] || 0], in descending order of the values and with ties in
    input order; nothing is cut off. *)
Theorem rankBySource_full_ranking (data : Dataset) (year source : string)
    (regs : list RegionRecord) :
  regional data !! year = Some regs ->
  exists ranking,
    rankBySource data year source = Ok ranking /\
    Permutation ranking
      (map (fun r => mkRank (region r) (get_or_zero r source)) regs) /\
    descending val ranking /\
    (forall k, withKey val k ranking
               = withKey val k
                   (map (fun r => mkRank (region r) (get_or_zero r source))
                      regs)) /\
    length ranking = length regs /\
    Permutation (map rank_region ranking) (map region regs).
Proof.
  intros Hy.
  destruct (rankBySource_stable data year source regs Hy)
    as (ranking & E & Hperm & Hdesc & Hstable & Hlen).
  exists ranking. repeat (split; [assumption|]).
  rewrite (Permutation_map rank_region Hperm), List.map_map. reflexivity.
Qed.

Lemma rankBySource_full_ranking_witness :
  exists ranking,
    rankBySource exData "2023" "wind" = Ok ranking /\
    Permutation ranking
      (map (fun r => mkRank (region r) (get_or_zero r "wind")) [exA; exB]) /\
    descending val ranking /\
    (forall k, withKey val k ranking
               = withKey val k
                   (map (fun r => mkRank (region r) (get_or_zero r "wind"))
                      [exA; exB])) /\
    length ranking = length [exA; exB] /\
    Permutation (map rank_region ranking) (map region [exA; exB]).
Proof.
  apply (rankBySource_full_ranking exData "2023" "wind" [exA; exB]).
  vm_compute; reflexivity.
Defined.

(** ** Sorting twice *)

Section SortedInput.
Context {A : Type} (key : A -> Q).

(** A list that already is in descending order is left as it is. *)
Lemma js_sort_descending_id (l : list A) :
  descending key l -> js_sort (fun a b => key b - key a) l = l.
Proof.
  unfold descending.
  induction 1 as [|x l Hl IH Hx]; [reflexivity|].
  change (js_sort (fun a b => key b - key a) (x :: l))
    with (insert_sorted (fun a b => key b - key a) x
            (js_sort (fun a b => key b - key a) l)).
  rewrite IH. destruct l as [|y l']; [reflexivity|].
  simpl. apply Forall_cons in Hx. destruct Hx as [Hy _].
  assert (E : Qle_bool (key y - key x) 0 = true)
    by (apply Qle_bool_iff; lra).
  now rewrite E.
Qed.

(** Sorting is idempotent, whatever the input. *)
Theorem js_sort_idempotent (l : list A) :
  js_sort (fun a b => key b - key a) (js_sort (fun a b => key b - key a) l)
  = js_sort (fun a b => key b - key a) l.
Proof. apply js_sort_descending_id, js_sort_desc. Qed.
End SortedInput.

(** ** The stacked bar chart of the top regions *)

(** The regional chart has the names of the top five regions as labels and
    one series per source, in the order of the source list, with the
    series' hue; every series has one entry per label, the raw [r[source]]
    of that region, which is [undefined] for an absent key although the
    ranking counted it as 0. *)
Theorem regionalChart_shape (data : Dataset) (year : string)
    (regs : list RegionRecord) :
  regional data !! year = Some regs ->
  exists c,
    regionalChart data year = Ok c /\
    let top := take 5 (fullRanking (sources data) regs) in
    regional_labels c = map region top /\
    length (regional_labels c) = Nat.min 5 (length regs) /\
    length (regional_datasets c) = length (sources data) /\
    (forall i source,
        sources data !! i = Some source ->
        regional_datasets c !! i
        = Some (mkSeries source (map (fun r => prop r source) top) (hue i))) /\
    (forall ser, In ser (regional_datasets c) ->
                 length (series_data ser) = length (regional_labels c)).
Proof.
  intros Hy.
  unfold regionalChart, sortedRegions, topRegions. rewrite Hy.
  eexists. split; [reflexivity|].
  cbn zeta. cbn [regional_labels regional_datasets].
  unfold slice0.
  split; [reflexivity|]. split.
  { assert (Hl : length (fullRanking (sources data) regs) = length regs)
      by apply Permutation_length, (js_sort_perm (regionTotal (sources data))).
    rewrite length_map, length_take, Hl. reflexivity. }
  split; [apply length_imap|]. split.
  - intros i source Hi. rewrite list_lookup_imap, Hi. reflexivity.
  - intros ser Hin. apply list_elem_of_In, list_elem_of_lookup in Hin.
    destruct Hin as (i & Hi). rewrite list_lookup_imap in Hi.
    destruct (sources data !! i) as [source|]; [|discriminate].
    injection Hi as <-. cbn [series_data]. now rewrite !length_map.
Qed.

Lemma regionalChart_shape_witness :
  exists c,
    regionalChart exData "2023" = Ok c /\
    let top := take 5 (fullRanking (sources exData) [exA; exB]) in
    regional_labels c = map region top /\
    length (regional_labels c) = Nat.min 5 (length [exA; exB]) /\
    length (regional_datasets c) = length (sources exData) /\
    (forall i source,
        sources exData !! i = Some source ->
        regional_datasets c !! i
        = Some (mkSeries source (map (fun r => prop r source) top) (hue i))) /\
    (forall ser, In ser (regional_datasets c) ->
                 length (series_data ser) = length (regional_labels c)).
Proof.
  apply (regionalChart_shape exData "2023" [exA; exB]).
  vm_compute; reflexivity.
Defined.

(** ** Keys outside the source list, empty years, empty source lists *)

Lemma fold_left_ext_in {A B} (f g : A -> B -> A) (l : list B) (a : A) :
  (forall acc x, In x l -> f acc x = g acc x) ->
  fold_left f l a = fold_left g l a.
Proof.
  revert a. induction l as [|x l IH]; intros a H; [reflexivity|].
  simpl. rewrite (H a x) by now left.
  apply IH. intros acc y Hy. apply H. now right.
Qed.

(** A key that is not in the source list does not count: adding or
    changing it in a record changes neither the record's total nor, hence,
    any ranking by total. *)
Theorem regionTotal_ignores_unlisted (srcs : list string) (name key : string)
    (v : Q) (g : gmap string Q) :
  ~ In key srcs ->
  regionTotal srcs (mkRegion name (<[key := v]> g))
  = regionTotal srcs (mkRegion name g).
Proof.
  intros Hk. unfold regionTotal. apply fold_left_ext_in.
  intros acc s Hs. f_equal. unfold get_or_zero, prop. cbn [gen].
  rewrite lookup_insert_ne; [reflexivity|].
  intros ->. contradiction.
Qed.

Lemma regionTotal_ignores_unlisted_witness :
  regionTotal ["solar"; "wind"] (mkRegion "A" (<["region" := 7]> (gen exA)))
  = regionTotal ["solar"; "wind"] (mkRegion "A" (gen exA)).
Proof.
  apply (regionTotal_ignores_unlisted ["solar"; "wind"] "A" "region" 7).
  simpl. intros [H | [H | []]]; discriminate.
Defined.

(** A year with no region records is handled everywhere without a
    failure: the total is 0, the rankings and the heatmap body are empty,
    and every source total is 0. *)
Theorem empty_year (data : Dataset) (year source : string) (n : nat) :
  regional data !! year = Some [] ->
  totalForYear data year = Ok 0 /\
  topRegions data year n = Ok [] /\
  rankBySource data year source = Ok [] /\
  regionShareTotals data year = Ok [] /\
  sourceMixTotals data year = Ok (map (fun _ => 0) (sources data)) /\
  heatmap data year = Ok (mkHeatmap (sources data) []) /\
  gridMax (sources data) [] = Some 0.
Proof.
  intros Hy.
  rewrite (sourceMixTotals_known_year data year [] Hy).
  unfold totalForYear, topRegions, rankBySource, regionShareTotals, heatmap.
  rewrite Hy. unfold slice0, fullRanking, js_sort. cbn [foldr map].
  rewrite take_nil. repeat split; reflexivity.
Qed.

Lemma empty_year_witness :
  let data := mkDataset ["solar"] (<["2020" := []]> ∅) "2020" in
  totalForYear data "2020" = Ok 0 /\
  topRegions data "2020" 5 = Ok [] /\
  rankBySource data "2020" "solar" = Ok [] /\
  regionShareTotals data "2020" = Ok [] /\
  sourceMixTotals data "2020" = Ok (map (fun _ => 0) (sources data)) /\
  heatmap data "2020" = Ok (mkHeatmap (sources data) []) /\
  gridMax (sources data) [] = Some 0.
Proof.
  apply (empty_year (mkDataset ["solar"] (<["2020" := []]> ∅) "2020")
           "2020" "solar" 5).
  vm_compute; reflexivity.
Defined.

(** ** More on the percentage labels *)

(** The printed percentage depends on the value of the number only. *)
Lemma toFixed1_Qeq (q q' : Q) :
  q == q' -> toFixed1 (Num q) = toFixed1 (Num q').
Proof.
  intros H. unfold toFixed1.
  assert (Ht : tenths q = tenths q').
  { unfold tenths. apply Qfloor_comp. rewrite H. reflexivity. }
  assert (Hs : Qlt_bool q 0 = Qlt_bool q' 0).
  { unfold Qlt_bool. f_equal.
    destruct (Qle_bool 0 q) eqn:E; symmetry.
    - apply Qle_bool_iff. apply Qle_bool_iff in E. lra.
    - apply Qle_bool_false_iff. apply Qle_bool_false_iff in E. lra. }
  now rewrite Ht, Hs.
Qed.

(** Printing with [toFixed(1)] and reading the string back as a number
    gives the number rounded to one decimal place (halves away from zero),
    which differs from the number by at most 0.05; the infinities and
    [NaN] come back as themselves. *)
Theorem toFixed1_round_trip (q : Q) :
  (exists r, ToNumber (toFixed1 (Num q)) = Num r /\
             r == roundTo1 q /\ Qabs (r - q) <= 1 # 20) /\
  ToNumber (toFixed1 PInf) = PInf /\
  ToNumber (toFixed1 NInf) = NInf /\
  ToNumber (toFixed1 NaN) = NaN.
Proof.
  split; [|repeat split; reflexivity].
  destruct (ToNumber_toFixed1 q) as (r & Hr & Heq).
  exists r. split; [exact Hr|]. split; [exact Heq|].
  destruct (roundTo1_close q) as [Hlo Hhi].
  apply Qabs_Qle_condition. rewrite Heq. split; lra.
Qed.

Lemma tenths_ge_iff (q : Q) (z : Z) :
  (z <= tenths q)%Z <-> inject_Z z <= Qabs q * 10 + (1 # 2).
Proof.
  destruct (tenths_bounds q) as [Hlo Hhi]. split.
  - intros H. rewrite Zle_Qle in H. lra.
  - intros H.
    assert (Hlt : inject_Z z < inject_Z (tenths q + 1)).
    { rewrite inject_Z_plus. change (inject_Z 1) with 1. lra. }
    rewrite <- Zlt_Qlt in Hlt. lia.
Qed.

(** In exact arithmetic the rounded percentage exceeds 3 exactly from 3.05
    on. *)
Lemma rounded_exceeds_3 (q p : Q) :
  p == roundTo1 q -> (3 < p <-> 61 # 20 <= q).
Proof.
  intros Hp. rewrite Hp. unfold roundTo1.
  pose proof (tenths_ge_iff q 31) as H31.
  pose proof (tenths_nonneg q) as Hnn. rewrite Zle_Qle in Hnn.
  change (inject_Z 0) with 0 in Hnn. change (inject_Z 31) with 31 in H31.
  destruct (Qlt_bool q 0) eqn:E.
  - apply Qlt_bool_iff in E. unfold Qdiv. change (/ 10) with (1 # 10).
    split; intros H; lra.
  - apply Qlt_bool_false_iff in E.
    rewrite (Qabs_pos q) in H31 by exact E.
    unfold Qdiv. change (/ 10) with (1 # 10). split; intros H.
    + assert (H' : (31 <= tenths q)%Z).
      { assert (Hlt : inject_Z 30 < inject_Z (tenths q))
          by (change (inject_Z 30) with 30; lra).
        rewrite <- Zlt_Qlt in Hlt. lia. }
      apply H31 in H'. lra.
    + assert (H' : (31 <= tenths q)%Z) by (apply H31; lra).
      rewrite Zle_Qle in H'. change (inject_Z 31) with 31 in H'. lra.
Qed.

(** In terms of the unrounded percentage: an entry whose share of the
    visible sum is at least 3.06% always gets a label, and one whose share
    is at most 3.04% never does.  (Between the two the rounding inside
    [toFixed] decides, and the script's binary64 quotient can fall on the
    other side of 3.05 than the exact one, so nothing is stated there.) *)
Theorem formatter_shown_margin (value : Q) (dataArr : list Q)
    (vis : nat -> bool) (q : Q) :
  rawPercent value dataArr vis = Num q ->
  (153 # 50 <= q -> formatter value dataArr vis <> "") /\
  (q <= 76 # 25 -> formatter value dataArr vis = "").
Proof.
  intros Hraw. unfold formatter. rewrite Hraw.
  destruct (ToNumber_toFixed1 q) as (p & Ep & Hp). rewrite Ep.
  unfold js_gt.
  pose proof (rounded_exceeds_3 q p Hp) as Hiff.
  destruct (Qlt_bool 3 p) eqn:E.
  - apply Qlt_bool_iff in E. apply Hiff in E. split.
    + intros _. apply append_percent_nonempty.
    + intros Hle. lra.
  - apply Qlt_bool_false_iff in E. split; [|reflexivity].
    intros Hge. assert (H : 3 < p) by (apply Hiff; lra). lra.
Qed.

Lemma formatter_shown_margin_witness :
  formatter 150 [150; 50] allVisible <> "" /\
  formatter 3 [3; 97] allVisible = "".
Proof.
  split.
  - apply (formatter_shown_margin 150 [150; 50] allVisible
             (150 * 100 / 200)); [reflexivity | vm_compute; discriminate].
  - apply (formatter_shown_margin 3 [3; 97] allVisible (3 * 100 / 100));
      [reflexivity | vm_compute; discriminate].
Defined.

(** With a visible sum of 0 the formatter labels an entry "Infinity%"
    when its value is positive and gives no label otherwise. *)
Theorem formatter_zero_sum (value : Q) (dataArr : list Q)
    (vis : nat -> bool) :
  visibleSum vis dataArr == 0 ->
  formatter value dataArr vis = if Qlt_bool 0 value then "Infinity%" else "".
Proof.
  intros Hsum. unfold formatter.
  rewrite (rawPercent_zero_sum value dataArr vis Hsum).
  destruct (Qeq_bool value 0) eqn:E.
  - apply Qeq_bool_iff in E.
    assert (L : Qlt_bool 0 value = false)
      by (apply Qlt_bool_false_iff; lra).
    rewrite L. reflexivity.
  - destruct (Qlt_bool 0 value); reflexivity.
Qed.

Lemma formatter_zero_sum_witness :
  formatter 5 [5; 0] (fun i => negb (Nat.eqb i 0))
  = if Qlt_bool 0 5 then "Infinity%" else "".
Proof.
  apply (formatter_zero_sum 5 [5; 0] (fun i => negb (Nat.eqb i 0))).
  reflexivity.
Defined.

Lemma visibleValues_single (vis : nat -> bool) (i : nat) :
  (forall j, vis j = true <-> j = i) ->
  forall (l : list Q) (k : nat),
    Qsum (visibleValues vis k l)
    == if decide (k <= i)%nat then default 0 (l !! (i - k)%nat) else 0.
Proof.
  intros Hvis. induction l as [|d l IH]; intros k.
  - simpl. destruct (decide (k <= i)%nat); reflexivity.
  - cbn [visibleValues]. destruct (vis k) eqn:E.
    + apply Hvis in E. subst k. cbn [Qsum]. rewrite IH.
      rewrite decide_False by lia. rewrite decide_True by lia.
      rewrite Nat.sub_diag. simpl. lra.
    + assert (Hne : k <> i).
      { intros ->. assert (vis i = true) by now apply Hvis. congruence. }
      rewrite IH. destruct (decide (k <= i)%nat) as [Hle|Hgt].
      * rewrite decide_True by lia.
        replace (i - k)%nat with (S (i - S k)) by lia. reflexivity.
      * rewrite decide_False by lia. reflexivity.
Qed.

(** When a single entry is visible and positive, its label is "100.0%",
    whatever the hidden entries are. *)
Theorem formatter_single_visible (values : list Q) (vis : nat -> bool)
    (i : nat) (value : Q) :
  (forall j, vis j = true <-> j = i) ->
  values !! i = Some value ->
  0 < value ->
  formatter value values vis = "100.0%".
Proof.
  intros Hvis Hi Hpos.
  assert (Hsum : visibleSum vis values == value).
  { rewrite visibleSum_values, (visibleValues_single vis i Hvis).
    rewrite decide_True by lia. rewrite Nat.sub_0_r, Hi. reflexivity. }
  unfold formatter.
  rewrite rawPercent_finite by lra.
  assert (Hq : value * 100 / visibleSum vis values == 100).
  { rewrite Hsum. field. lra. }
  rewrite (toFixed1_Qeq _ 100 Hq). reflexivity.
Qed.

Lemma formatter_single_visible_witness :
  formatter 50 [150; 50] (fun j => Nat.eqb j 1) = "100.0%".
Proof.
  apply (formatter_single_visible [150; 50] (fun j => Nat.eqb j 1) 1 50).
  - intros j. apply Nat.eqb_eq.
  - reflexivity.
  - reflexivity.
Defined.

(** ** More on the heatmap *)

(** The scale of the heatmap is a number, the largest value of the grid
    or 0 when no value is positive; it is positive exactly when some cell
    is. *)
Theorem gridMax_is_maximum (srcs : list string) (regs : list RegionRecord) :
  exists m,
    gridMax srcs regs = Some m /\
    0 <= m /\
    (forall r s, In r regs -> In s srcs -> get_or_zero r s <= m) /\
    (m = 0 \/ exists r s, In r regs /\ In s srcs /\ m = get_or_zero r s) /\
    (0 < m <->
     exists r s, In r regs /\ In s srcs /\ 0 < get_or_zero r s).
Proof.
  destruct (gridMax_spec srcs regs) as (m & E & Hm & Hle & Hor).
  exists m. repeat (split; [assumption|]). split.
  - intros Hpos. destruct Hor as [-> | (r & s & Hr & Hs & ->)]; [lra|].
    exists r, s. auto.
  - intros (r & s & Hr & Hs & Hpos). specialize (Hle r s Hr Hs). lra.
Qed.

(** Every cell of the heatmap is either the dash cell, for a value that is
    not positive, or shows the value on a background whose alpha is the
    finite number [0.1 + 0.9 * value / max], above 0.1 and at most 1, with
    white text exactly when the value is more than four ninths of the
    maximum. *)
Theorem heatmap_cells (srcs : list string) (regs : list RegionRecord)
    (r : RegionRecord) (s : string) :
  In r regs -> In s srcs ->
  exists m,
    gridMax srcs regs = Some m /\
    let v := get_or_zero r s in
    (v <= 0 -> heatmapCell (Some m) r s = emptyCell) /\
    (0 < v ->
     exists i,
       heatmapCell (Some m) r s
       = mkCell (Localized v) (Some (Num i))
           (Some (if Qlt_bool (1 # 2) i then White else Black)) /\
       i == (1 # 10) + (9 # 10) * (v / m) /\
       1 # 10 < i /\ i <= 1 /\
       (1 # 2 < i <-> 4 * m < 9 * v)).
Proof.
  intros Hr Hs.
  destruct (gridMax_spec srcs regs) as (m & E & Hm & Hle & _).
  exists m. split; [exact E|]. cbn zeta.
  specialize (Hle r s Hr Hs). unfold heatmapCell.
  set (v := get_or_zero r s) in *. split.
  - intros Hv. unfold heatmapCellOf.
    assert (L : Qlt_bool 0 v = false) by (apply Qlt_bool_false_iff; lra).
    now rewrite L.
  - intros Hv. unfold heatmapCellOf.
    assert (L : Qlt_bool 0 v = true) by (apply Qlt_bool_iff; lra).
    rewrite L. cbn zeta. rewrite heatmapIntensity_finite by lra.
    eexists. split; [reflexivity|].
    destruct (ratio_bounds v m ltac:(lra) ltac:(lra) Hle) as [Hlo Hhi].
    assert (Hrpos : 0 < v / m).
    { apply Qlt_shift_div_l; lra. }
    split; [lra|]. split; [lra|]. split; [lra|].
    split; intros H.
    + assert (Hd : 4 # 9 < v / m) by lra.
      apply (Qmult_lt_r _ _ m) in Hd; [|lra].
      assert (Hvm : v / m * m == v) by (field; lra). lra.
    + assert (Hd : 4 # 9 < v / m).
      { apply Qlt_shift_div_l; lra. }
      lra.
Qed.

Lemma heatmap_cells_witness :
  exists m,
    gridMax (sources exData) [exA; exB] = Some m /\
    let v := get_or_zero exB "solar" in
    (v <= 0 -> heatmapCell (Some m) exB "solar" = emptyCell) /\
    (0 < v ->
     exists i,
       heatmapCell (Some m) exB "solar"
       = mkCell (Localized v) (Some (Num i))
           (Some (if Qlt_bool (1 # 2) i then White else Black)) /\
       i == (1 # 10) + (9 # 10) * (v / m) /\
       1 # 10 < i /\ i <= 1 /\
       (1 # 2 < i <-> 4 * m < 9 * v)).
Proof.
  apply (heatmap_cells (sources exData) [exA; exB] exB "solar");
    simpl; auto.
Defined.

(** As soon as one value of the year is positive, some cell of the heatmap
    holds the largest value and is painted with alpha 1 and white text. *)
Theorem heatmap_has_saturated_cell (srcs : list string)
    (regs : list RegionRecord) (r0 : RegionRecord) (s0 : string) :
  In r0 regs -> In s0 srcs -> 0 < get_or_zero r0 s0 ->
  exists m r s i,
    gridMax srcs regs = Some m /\
    In r regs /\ In s srcs /\
    get_or_zero r s = m /\
    heatmapCell (Some m) r s
    = mkCell (Localized m) (Some (Num i)) (Some White) /\
    i == 1.
Proof.
  intros Hr0 Hs0 Hpos.
  destruct (gridMax_spec srcs regs) as (m & E & Hm & Hle & Hor).
  pose proof (Hle r0 s0 Hr0 Hs0) as Hle0.
  destruct Hor as [-> | (r & s & Hr & Hs & Hms)]; [lra|].
  exists m, r, s. eexists.
  split; [exact E|]. split; [exact Hr|]. split; [exact Hs|].
  split; [now symmetry|].
  unfold heatmapCell. rewrite <- Hms. unfold heatmapCellOf.
  assert (L : Qlt_bool 0 m = true) by (apply Qlt_bool_iff; lra).
  rewrite L. cbn zeta. rewrite heatmapIntensity_finite by lra.
  assert (Hi : (1 # 10) + m / m * (9 # 10) == 1) by (field; lra).
  assert (W : js_gt (Num ((1 # 10) + m / m * (9 # 10))) (Num (1 # 2)) = true).
  { unfold js_gt. apply Qlt_bool_iff. lra. }
  rewrite W. split; [reflexivity | exact Hi].
Qed.

Lemma heatmap_has_saturated_cell_witness :
  exists m r s i,
    gridMax (sources exData) [exA; exB] = Some m /\
    In r [exA; exB] /\ In s (sources exData) /\
    get_or_zero r s = m /\
    heatmapCell (Some m) r s
    = mkCell (Localized m) (Some (Num i)) (Some White) /\
    i == 1.
Proof.
  apply (heatmap_has_saturated_cell (sources exData) [exA; exB] exB "wind").
  - simpl; auto.
  - simpl; auto.
  - reflexivity.
Defined.

(** The heatmap of a known year has the source list as its header and one
    row per region record, in input order and labelled with the region,
    with one cell per source. *)
Theorem heatmap_shape (data : Dataset) (year : string)
    (regs : list RegionRecord) :
  regional data !! year = Some regs ->
  exists t,
    heatmap data year = Ok t /\
    header t = sources data /\
    map fst (rows t) = map region regs /\
    Forall (fun row => length (snd row) = length (sources data)) (rows t).
Proof.
  intros Hy. unfold heatmap. rewrite Hy.
  eexists. split; [reflexivity|]. cbn [header rows]. split; [reflexivity|].
  unfold heatmapRows. split.
  - rewrite List.map_map. reflexivity.
  - apply List.Forall_forall. intros row Hin.
    apply List.in_map_iff in Hin. destruct Hin as (r & <- & _).
    cbn [snd]. apply length_map.
Qed.

Lemma heatmap_shape_witness :
  exists t,
    heatmap exData "2023" = Ok t /\
    header t = sources exData /\
    map fst (rows t) = map region [exA; exB] /\
    Forall (fun row => length (snd row) = length (sources exData)) (rows t).
Proof.
  apply (heatmap_shape exData "2023" [exA; exB]). vm_compute; reflexivity.
Defined.

(** ** The selection handler on known years *)

Ltac run_handlers :=
  unfold filterByYear, renderRegionalChart, renderMixChart,
    renderRegionalShareChart, showHeatmap, updateRankingTable,
    bind, modify, readData, bind, gets, lift, ret, throw.

Lemma Math_round_close (x : Q) :
  Qabs (inject_Z (Math_round x) - x) <= 1 # 2.
Proof.
  unfold Math_round.
  pose proof (Qfloor_le (x + (1 # 2))) as Hlo.
  pose proof (Qlt_floor (x + (1 # 2))) as Hhi.
  rewrite inject_Z_plus in Hhi. change (inject_Z 1) with 1 in Hhi.
  apply Qabs_Qle_condition. split; lra.
Qed.

Lemma viewModels_known_year (data : Dataset) (year source : string)
    (regs : list RegionRecord) :
  regional data !! year = Some regs ->
  regionalChart data year = Ok (regionalChartOf data regs) /\
  mixChart data year = Ok (mixChartOf data regs) /\
  shareChart data year = Ok (shareChartOf data regs) /\
  rankingChart data year source = Ok (rankingChartOf source regs) /\
  heatmap data year = Ok (heatmapOf data regs).
Proof.
  intros Hy.
  unfold regionalChart, sortedRegions, topRegions, mixChart, shareChart,
    regionShareTotals, rankingChart, rankBySource, heatmap.
  rewrite (sourceMixTotals_known_year data year regs Hy), Hy.
  repeat split; reflexivity.
Qed.

Lemma filterByYear_run (s : State) (data : Dataset) (year : string)
    (regs : list RegionRecord) :
  globalData s = Some data ->
  regional data !! year = Some regs ->
  filterByYear year s = (Ok tt, renderedState s data year regs).
Proof.
  intros Hd Hy.
  assert (Hmix := sourceMixTotals_known_year data year regs Hy).
  destruct s as [cy gd ss hb sy sf st cr0 cm0 cs0 cd0 dv].
  simpl in Hd. subst gd.
  unfold renderedState, heatmapMode. run_handlers.
  unfold totalForYear, regionalChart, sortedRegions, topRegions, mixChart,
    shareChart, regionShareTotals, rankingChart, rankBySource, heatmap.
  repeat (rewrite ?Hy, ?Hmix; progress step_state).
  destruct hb as [[|]|]; step_state; rewrite ?Hy; step_state; reflexivity.
Qed.

(** Selecting a year of the regional mapping succeeds and rewrites the
    page from the dataset alone: the year, the three statistics (the total
    being the year's total rounded to the nearest integer) and the three
    charts; the detail view is redrawn in the mode it was in (the heatmap
    when its button is active, otherwise the ranking by the selected
    source), and the mode itself, the selected source and the dataset are
    left as they were. *)
Theorem filterByYear_renders (s : State) (data : Dataset) (year : string)
    (regs : list RegionRecord) :
  globalData s = Some data ->
  regional data !! year = Some regs ->
  exists cr cm cs ck t,
    regionalChart data year = Ok cr /\
    mixChart data year = Ok cm /\
    shareChart data year = Ok cs /\
    rankingChart data year (sourceSelect s) = Ok ck /\
    heatmap data year = Ok t /\
    filterByYear year s
    = (Ok tt,
       mkState year (Some data) (sourceSelect s) (heatmapBtn s)
         (year +:+ "년") (featureOf year)
         (Some (Math_round (totalGen (sources data) regs)))
         (Some cr) (Some cm) (Some cs)
         (if heatmapMode s then charts_detail s else Some ck)
         (if heatmapMode s then DetailTable t else DetailCanvas)) /\
    Qabs (inject_Z (Math_round (totalGen (sources data) regs))
          - totalGen (sources data) regs) <= 1 # 2.
Proof.
  intros Hd Hy.
  destruct (viewModels_known_year data year (sourceSelect s) regs Hy)
    as (Hr & Hm & Hs & Hk & Ht).
  exists (regionalChartOf data regs), (mixChartOf data regs),
    (shareChartOf data regs), (rankingChartOf (sourceSelect s) regs),
    (heatmapOf data regs).
  repeat (split; [assumption|]).
  split; [|apply Math_round_close].
  apply (filterByYear_run s data year regs Hd Hy).
Qed.

Lemma filterByYear_renders_witness :
  exists cr cm cs ck t,
    regionalChart exData "2023" = Ok cr /\
    mixChart exData "2023" = Ok cm /\
    shareChart exData "2023" = Ok cs /\
    rankingChart exData "2023" (sourceSelect exState) = Ok ck /\
    heatmap exData "2023" = Ok t /\
    filterByYear "2023" exState
    = (Ok tt,
       mkState "2023" (Some exData) (sourceSelect exState)
         (heatmapBtn exState) ("2023" +:+ "년") (featureOf "2023")
         (Some (Math_round (totalGen (sources exData) [exA; exB])))
         (Some cr) (Some cm) (Some cs)
         (if heatmapMode exState then charts_detail exState else Some ck)
         (if heatmapMode exState then DetailTable t else DetailCanvas)) /\
    Qabs (inject_Z (Math_round (totalGen (sources exData) [exA; exB]))
          - totalGen (sources exData) [exA; exB]) <= 1 # 2.
Proof.
  apply (filterByYear_renders exState exData "2023" [exA; exB]);
    vm_compute; reflexivity.
Defined.

Lemma renderedState_twice (s : State) (data : Dataset)
    (year1 year2 : string) (regs1 regs2 : list RegionRecord) :
  renderedState (renderedState s data year1 regs1) data year2 regs2
  = renderedState s data year2 regs2.
Proof.
  unfold renderedState, heatmapMode. cbn [sourceSelect heatmapBtn charts_detail].
  destruct (heatmapBtn s) as [[|]|]; reflexivity.
Qed.

(** The page after a selection does not depend on the selections made
    before: selecting one known year and then another leaves exactly the
    page that selecting the second year directly would have left, so
    nothing computed for the first year (a maximum, a ranking, a total)
    survives; in particular selecting the same year twice changes nothing
    the second time. *)
Theorem filterByYear_last_selection_wins (s : State) (data : Dataset)
    (year1 year2 : string) (regs1 regs2 : list RegionRecord) :
  globalData s = Some data ->
  regional data !! year1 = Some regs1 ->
  regional data !! year2 = Some regs2 ->
  filterByYear year2 (snd (filterByYear year1 s)) = filterByYear year2 s /\
  filterByYear year2 (snd (filterByYear year2 s)) = filterByYear year2 s.
Proof.
  intros Hd H1 H2.
  rewrite (filterByYear_run s data year1 regs1 Hd H1).
  rewrite (filterByYear_run s data year2 regs2 Hd H2).
  cbn [snd].
  rewrite (filterByYear_run (renderedState s data year1 regs1) data year2
             regs2 eq_refl H2).
  rewrite (filterByYear_run (renderedState s data year2 regs2) data year2
             regs2 eq_refl H2).
  now rewrite !renderedState_twice.
Qed.

Lemma filterByYear_last_selection_wins_witness :
  filterByYear "2023" (snd (filterByYear "2022" exTwoState))
  = filterByYear "2023" exTwoState /\
  filterByYear "2023" (snd (filterByYear "2023" exTwoState))
  = filterByYear "2023" exTwoState.
Proof.
  apply (filterByYear_last_selection_wins exTwoState exTwoYears "2022" "2023"
           [mkRegion "A" (<["solar" := 5000]> ∅)] [exA; exB]);
    vm_compute; reflexivity.
Defined.

(** ** The detail view *)

Ltac step_page :=
  cbn [fst snd currentYear globalData sourceSelect heatmapBtn statYear
       statFeature statTotal charts_regional charts_mix charts_share
       charts_detail detailView set_currentYear set_statYear set_statFeature
       set_statTotal set_charts_regional set_charts_mix set_charts_share
       set_charts_detail set_detailView set_heatmapBtn set_globalData
       set_sourceSelect option_map].

(** Switching the detail view for a known current year.  [showHeatmap]
    puts the year's table into the container and marks its button;
    [updateRankingTable] puts the ranking canvas and the ranking by the
    selected source there and unmarks the button.  Entering the ranking
    forgets a heatmap shown before; entering the heatmap replaces the
    container but leaves the last ranking chart in its slot. *)
Theorem detail_view_switch (s : State) (data : Dataset)
    (regs : list RegionRecord) :
  globalData s = Some data ->
  regional data !! currentYear s = Some regs ->
  showHeatmap s
  = (Ok tt,
     set_detailView (DetailTable (heatmapOf data regs))
       (set_heatmapBtn (option_map (fun _ => true) (heatmapBtn s)) s)) /\
  updateRankingTable s
  = (Ok tt,
     set_charts_detail (Some (rankingChartOf (sourceSelect s) regs))
       (set_detailView DetailCanvas
          (set_heatmapBtn (option_map (fun _ => false) (heatmapBtn s)) s))) /\
  updateRankingTable (snd (showHeatmap s)) = updateRankingTable s /\
  showHeatmap (snd (showHeatmap s)) = showHeatmap s /\
  showHeatmap (snd (updateRankingTable s))
  = (Ok tt,
     set_charts_detail (Some (rankingChartOf (sourceSelect s) regs))
       (snd (showHeatmap s))).
Proof.
  intros Hd Hy.
  destruct s as [cy gd ss hb sy sf st cr0 cm0 cs0 cd0 dv].
  simpl in Hd, Hy. subst gd.
  run_handlers. unfold heatmap, rankingChart, rankBySource.
  repeat (rewrite ?Hy; step_page).
  destruct hb as [[|]|]; repeat (rewrite ?Hy; step_page);
    repeat split; reflexivity.
Qed.

Lemma detail_view_switch_witness :
  showHeatmap exState
  = (Ok tt,
     set_detailView (DetailTable (heatmapOf exData [exA; exB]))
       (set_heatmapBtn (option_map (fun _ => true) (heatmapBtn exState))
          exState)) /\
  updateRankingTable exState
  = (Ok tt,
     set_charts_detail
       (Some (rankingChartOf (sourceSelect exState) [exA; exB]))
       (set_detailView DetailCanvas
          (set_heatmapBtn (option_map (fun _ => false) (heatmapBtn exState))
             exState))) /\
  updateRankingTable (snd (showHeatmap exState))
  = updateRankingTable exState /\
  showHeatmap (snd (showHeatmap exState)) = showHeatmap exState /\
  showHeatmap (snd (updateRankingTable exState))
  = (Ok tt,
     set_charts_detail
       (Some (rankingChartOf (sourceSelect exState) [exA; exB]))
       (snd (showHeatmap exState))).
Proof.
  apply (detail_view_switch exState exData [exA; exB]);
    vm_compute; reflexivity.
Defined.

(** After a selection of an unknown year has failed, the current year is
    unknown: switching the detail view then fails too, after it has
    emptied the container (heatmap) or put an empty canvas there
    (ranking).  Selecting a known year afterwards repairs the page
    completely. *)
Theorem unknown_year_then (s : State) (data : Dataset)
    (badYear year : string) (regs : list RegionRecord) :
  globalData s = Some data ->
  regional data !! badYear = None ->
  regional data !! year = Some regs ->
  let s1 := snd (filterByYear badYear s) in
  showHeatmap s1
  = (Err TypeError,
     set_detailView DetailEmpty
       (set_heatmapBtn (option_map (fun _ => true) (heatmapBtn s1)) s1)) /\
  updateRankingTable s1
  = (Err TypeError,
     set_detailView DetailCanvas
       (set_heatmapBtn (option_map (fun _ => false) (heatmapBtn s1)) s1)) /\
  filterByYear year s1 = filterByYear year s.
Proof.
  intros Hd Hbad Hy. cbn zeta.
  assert (Hrun : filterByYear badYear s
                 = (Err TypeError,
                    set_statFeature (featureOf badYear)
                      (set_statYear (badYear +:+ "년")
                         (set_currentYear badYear s)))).
  { run_handlers. step_state. rewrite Hd. step_state.
    unfold totalForYear. rewrite Hbad. reflexivity. }
  rewrite Hrun. cbn [snd].
  rewrite (filterByYear_run s data year regs Hd Hy).
  rewrite (filterByYear_run
             (set_statFeature (featureOf badYear)
                (set_statYear (badYear +:+ "년") (set_currentYear badYear s)))
             data year regs Hd Hy).
  destruct s as [cy gd ss hb sy sf st cr0 cm0 cs0 cd0 dv].
  simpl in Hd. subst gd.
  run_handlers. unfold heatmap, rankingChart, rankBySource.
  repeat (rewrite ?Hbad; step_page).
  repeat split; reflexivity.
Qed.

Lemma unknown_year_then_witness :
  let s1 := snd (filterByYear "1999" exState) in
  showHeatmap s1
  = (Err TypeError,
     set_detailView DetailEmpty
       (set_heatmapBtn (option_map (fun _ => true) (heatmapBtn s1)) s1)) /\
  updateRankingTable s1
  = (Err TypeError,
     set_detailView DetailCanvas
       (set_heatmapBtn (option_map (fun _ => false) (heatmapBtn s1)) s1)) /\
  filterByYear "2023" s1 = filterByYear "2023" exState.
Proof.
  apply (unknown_year_then exState exData "1999" "2023" [exA; exB]);
    vm_compute; reflexivity.
Defined.

(** Before the dataset is there, every handler fails with a [TypeError]:
    the renderers without touching the page, [filterByYear] after it has
    stored the year and rewritten the year and feature statistics, the two
    detail handlers after they have changed the button and the container. *)
Theorem handlers_without_data (s : State) (year : string) :
  globalData s = None ->
  renderRegionalChart year s = (Err TypeError, s) /\
  renderMixChart year s = (Err TypeError, s) /\
  renderRegionalShareChart year s = (Err TypeError, s) /\
  filterByYear year s
  = (Err TypeError,
     set_statFeature (featureOf year)
       (set_statYear (year +:+ "년") (set_currentYear year s))) /\
  showHeatmap s
  = (Err TypeError,
     set_detailView DetailEmpty
       (set_heatmapBtn (option_map (fun _ => true) (heatmapBtn s)) s)) /\
  updateRankingTable s
  = (Err TypeError,
     set_detailView DetailCanvas
       (set_heatmapBtn (option_map (fun _ => false) (heatmapBtn s)) s)).
Proof.
  intros Hd.
  destruct s as [cy gd ss hb sy sf st cr0 cm0 cs0 cd0 dv].
  simpl in Hd. subst gd.
  run_handlers. repeat split; reflexivity.
Qed.

Lemma handlers_without_data_witness :
  renderRegionalChart "2023" blankState = (Err TypeError, blankState) /\
  renderMixChart "2023" blankState = (Err TypeError, blankState) /\
  renderRegionalShareChart "2023" blankState = (Err TypeError, blankState) /\
  filterByYear "2023" blankState
  = (Err TypeError,
     set_statFeature (featureOf "2023")
       (set_statYear ("2023" +:+ "년") (set_currentYear "2023" blankState))) /\
  showHeatmap blankState
  = (Err TypeError,
     set_detailView DetailEmpty
       (set_heatmapBtn (option_map (fun _ => true) (heatmapBtn blankState))
          blankState)) /\
  updateRankingTable blankState
  = (Err TypeError,
     set_detailView DetailCanvas
       (set_heatmapBtn (option_map (fun _ => false) (heatmapBtn blankState))
          blankState)).
Proof. apply (handlers_without_data blankState "2023"). reflexivity. Defined.

(** ** The static charts *)

Lemma mapRi_all_ok {A B} (f : nat -> A -> B) (l : list A) (k : nat) :
  mapRi (fun i x => Ok (f i x)) k l = Ok (imap (fun i => f (k + i)%nat) l).
Proof.
  revert k. induction l as [|x l IH]; intros k; [reflexivity|].
  cbn [mapRi]. rewrite IH. cbn [imap]. rewrite Nat.add_0_r.
  do 2 f_equal. apply imap_ext. intros i y _. simpl.
  f_equal. lia.
Qed.

Lemma trendChart_known (data : LoadedData) (ys : list YearlyAggregate) :
  yearly data = Some ys ->
  trendChart data
  = Ok (mkTrendChart (map yearly_year ys)
          (imap (fun index source =>
                   mkTrend source (map (fun d => yearly_gen d !! source) ys)
                     (hue index))
             (sources (core data)))).
Proof.
  intros Hy. unfold trendChart. rewrite Hy.
  rewrite (mapRi_all_ok
             (fun index source =>
                mkTrend source (map (fun d => yearly_gen d !! source) ys)
                  (hue index))).
  reflexivity.
Qed.

Lemma trendChart_missing (data : LoadedData) :
  yearly data = None -> trendChart data = Err TypeError.
Proof.
  intros Hy. unfold trendChart. rewrite Hy.
  destruct (sources (core data)); reflexivity.
Qed.

(** With the yearly rows present the two static charts are created: the
    trend chart has the years as labels and one series per source, in the
    order of the source list and with the series' hue, holding that
    source's raw value of every yearly row; the growth chart has one bar
    per growth entry, green exactly when the rate is at least 0, and is
    simply empty when the dataset has no growth rates. *)
Theorem renderYearlyCharts_shape (data : LoadedData)
    (ys : list YearlyAggregate) (p : Page) :
  yearly data = Some ys ->
  exists trend,
    renderYearlyCharts data p
    = (Ok tt,
       mkPage (page_state p) (sourceOptions p) (Some trend)
         (Some (growthChart data)) (alerts p)) /\
    trend_labels trend = map yearly_year ys /\
    length (trend_datasets trend) = length (sources (core data)) /\
    (forall i source,
        sources (core data) !! i = Some source ->
        trend_datasets trend !! i
        = Some (mkTrend source (map (fun d => yearly_gen d !! source) ys)
                  (hue i))) /\
    (let g := default [] (growth_rate data) in
     growth_labels (growthChart data) = map growth_year g /\
     growth_data (growthChart data) = map rate g /\
     length (growth_colors (growthChart data)) = length g /\
     forall i d,
       g !! i = Some d ->
       exists c, growth_colors (growthChart data) !! i = Some c /\
                 (c = Green <-> 0 <= rate d)) /\
    (growth_rate data = None ->
     growthChart data = mkGrowthChart [] [] []).
Proof.
  intros Hy. unfold renderYearlyCharts. rewrite (trendChart_known data ys Hy).
  eexists. split; [reflexivity|]. cbn [trend_labels trend_datasets].
  split; [reflexivity|]. split; [apply length_imap|]. split.
  { intros i source Hi. rewrite list_lookup_imap, Hi. reflexivity. }
  split.
  - cbn zeta. unfold growthChart.
    cbn [growth_labels growth_data growth_colors].
    split; [reflexivity|]. split; [reflexivity|]. split; [apply length_map|].
    intros i d Hi. rewrite list_lookup_fmap, Hi. cbn [fmap option_fmap option_map].
    eexists. split; [reflexivity|].
    destruct (Qle_bool 0 (rate d)) eqn:E.
    + apply Qle_bool_iff in E. split; auto.
    + split; [discriminate|]. intros H. apply Qle_bool_iff in H. congruence.
  - intros Hg. unfold growthChart. rewrite Hg. reflexivity.
Qed.

Lemma renderYearlyCharts_shape_witness :
  exists trend,
    renderYearlyCharts exLoaded blankPage
    = (Ok tt,
       mkPage (page_state blankPage) (sourceOptions blankPage) (Some trend)
         (Some (growthChart exLoaded)) (alerts blankPage)) /\
    trend_labels trend
    = map yearly_year
        [mkYearly "2022" (<["solar" := 120]> ∅);
         mkYearly "2023" (<["solar" := 150]> (<["wind" := 50]> ∅))] /\
    length (trend_datasets trend) = length (sources (core exLoaded)) /\
    (forall i source,
        sources (core exLoaded) !! i = Some source ->
        trend_datasets trend !! i
        = Some (mkTrend source
                  (map (fun d => yearly_gen d !! source)
                     [mkYearly "2022" (<["solar" := 120]> ∅);
                      mkYearly "2023"
                        (<["solar" := 150]> (<["wind" := 50]> ∅))])
                  (hue i))) /\
    (let g := default [] (growth_rate exLoaded) in
     growth_labels (growthChart exLoaded) = map growth_year g /\
     growth_data (growthChart exLoaded) = map rate g /\
     length (growth_colors (growthChart exLoaded)) = length g /\
     forall i d,
       g !! i = Some d ->
       exists c, growth_colors (growthChart exLoaded) !! i = Some c /\
                 (c = Green <-> 0 <= rate d)) /\
    (growth_rate exLoaded = None ->
     growthChart exLoaded = mkGrowthChart [] [] []).
Proof.
  apply (renderYearlyCharts_shape exLoaded
           [mkYearly "2022" (<["solar" := 120]> ∅);
            mkYearly "2023" (<["solar" := 150]> (<["wind" := 50]> ∅))]
           blankPage).
  reflexivity.
Defined.

(** Without the yearly rows neither static chart is created: the handler
    fails with a [TypeError] before it reaches the growth chart, whether
    or not there are sources or growth rates. *)
Theorem renderYearlyCharts_missing_yearly (data : LoadedData) (p : Page) :
  yearly data = None ->
  renderYearlyCharts data p = (Err TypeError, p).
Proof.
  intros Hy. unfold renderYearlyCharts.
  now rewrite (trendChart_missing data Hy).
Qed.

Lemma renderYearlyCharts_missing_yearly_witness :
  renderYearlyCharts (mkLoaded exData None (growth_rate exLoaded)) blankPage
  = (Err TypeError, blankPage).
Proof.
  apply (renderYearlyCharts_missing_yearly
           (mkLoaded exData None (growth_rate exLoaded)) blankPage).
  reflexivity.
Defined.

(** ** Page start-up *)

Lemma init_success_aux (preloaded : option LoadedData)
    (fetched : FetchOutcome) (picked : string) (p : Page)
    (data : LoadedData) (regs : list RegionRecord)
    (ys : list YearlyAggregate) :
  acquire preloaded fetched = inr data ->
  regional (core data) !! latest_year (core data) = Some regs ->
  yearly data = Some ys ->
  exists trend,
    trendChart data = Ok trend /\
    init preloaded fetched picked p
    = mkPage
        (renderedState (set_sourceSelect picked (page_state p)) (core data)
           (latest_year (core data)) regs)
        (sourceOptions p ++ sources (core data))
        (Some trend) (Some (growthChart data)) (alerts p).
Proof.
  intros Ha Hy Hys. unfold init. rewrite Ha. cbn zeta.
  unfold populateRankingOptions. cbn [page_state sourceOptions yearlyChart
                                      growthChartSlot alerts].
  cbn [currentYear set_sourceSelect set_currentYear].
  rewrite (filterByYear_run
             (set_sourceSelect picked
                (set_currentYear (latest_year (core data))
                   (set_globalData (Some (core data)) (page_state p))))
             (core data) (latest_year (core data)) regs eq_refl Hy).
  unfold renderYearlyCharts. rewrite (trendChart_known data ys Hys).
  eexists. split; [reflexivity|].
  cbn [page_state sourceOptions yearlyChart growthChartSlot alerts].
  reflexivity.
Qed.

Lemma init_unknown_aux (preloaded : option LoadedData)
    (fetched : FetchOutcome) (picked : string) (p : Page)
    (data : LoadedData) :
  acquire preloaded fetched = inr data ->
  regional (core data) !! latest_year (core data) = None ->
  let year := latest_year (core data) in
  init preloaded fetched picked p
  = mkPage
      (set_statFeature (featureOf year)
         (set_statYear (year +:+ "년")
            (set_sourceSelect picked
               (set_currentYear year
                  (set_globalData (Some (core data)) (page_state p))))))
      (sourceOptions p ++ sources (core data))
      (yearlyChart p) (growthChartSlot p)
      (alerts p ++ [RuntimeError TypeError]).
Proof.
  intros Ha Hy. cbn zeta. unfold init. rewrite Ha. cbn zeta.
  unfold populateRankingOptions, alert.
  cbn [page_state sourceOptions yearlyChart growthChartSlot alerts].
  cbn [currentYear set_sourceSelect set_currentYear].
  assert (Hrun : forall s, globalData s = Some (core data) ->
                   filterByYear (latest_year (core data)) s
                   = (Err TypeError,
                      set_statFeature (featureOf (latest_year (core data)))
                        (set_statYear (latest_year (core data) +:+ "년")
                           (set_currentYear (latest_year (core data)) s)))).
  { intros s Hd. run_handlers. step_state. rewrite Hd. step_state.
    unfold totalForYear. rewrite Hy. reflexivity. }
  rewrite Hrun by reflexivity.
  cbn [page_state sourceOptions yearlyChart growthChartSlot alerts].
  destruct (page_state p). reflexivity.
Qed.

(** Start-up with a dataset whose latest year is a key of the regional
    mapping and which has yearly rows: no alert is raised, the dataset and
    its latest year are stored, the source options are appended, the page
    is the one a selection of the latest year leaves, and both static
    charts are created. *)
Theorem init_success (preloaded : option LoadedData) (fetched : FetchOutcome)
    (picked : string) (p : Page) (data : LoadedData)
    (regs : list RegionRecord) (ys : list YearlyAggregate) :
  acquire preloaded fetched = inr data ->
  regional (core data) !! latest_year (core data) = Some regs ->
  yearly data = Some ys ->
  exists trend,
    trendChart data = Ok trend /\
    init preloaded fetched picked p
    = mkPage
        (renderedState (set_sourceSelect picked (page_state p)) (core data)
           (latest_year (core data)) regs)
        (sourceOptions p ++ sources (core data))
        (Some trend) (Some (growthChart data)) (alerts p).
Proof. apply init_success_aux. Qed.

Lemma init_success_witness :
  exists trend,
    trendChart exLoaded = Ok trend /\
    init None (FetchJson (Some exLoaded)) "solar" blankPage
    = mkPage
        (renderedState (set_sourceSelect "solar" (page_state blankPage))
           (core exLoaded) (latest_year (core exLoaded)) [exA; exB])
        (sourceOptions blankPage ++ sources (core exLoaded))
        (Some trend) (Some (growthChart exLoaded)) (alerts blankPage).
Proof.
  apply (init_success None (FetchJson (Some exLoaded)) "solar" blankPage
           exLoaded [exA; exB]
           [mkYearly "2022" (<["solar" := 120]> ∅);
            mkYearly "2023" (<["solar" := 150]> (<["wind" := 50]> ∅))]);
    vm_compute; reflexivity.
Defined.

(** Start-up with a dataset whose latest year is not a key of the regional
    mapping ends in one alert for the [TypeError], but only after the
    dataset and the year have been stored, the source options appended and
    the year and feature statistics rewritten; no chart is created. *)
Theorem init_unknown_latest_year (preloaded : option LoadedData)
    (fetched : FetchOutcome) (picked : string) (p : Page)
    (data : LoadedData) :
  acquire preloaded fetched = inr data ->
  regional (core data) !! latest_year (core data) = None ->
  let year := latest_year (core data) in
  init preloaded fetched picked p
  = mkPage
      (set_statFeature (featureOf year)
         (set_statYear (year +:+ "년")
            (set_sourceSelect picked
               (set_currentYear year
                  (set_globalData (Some (core data)) (page_state p))))))
      (sourceOptions p ++ sources (core data))
      (yearlyChart p) (growthChartSlot p)
      (alerts p ++ [RuntimeError TypeError]).
Proof. apply init_unknown_aux. Qed.

Lemma init_unknown_latest_year_witness :
  let data := mkLoaded (mkDataset ["solar"] (<["2023" := [exA]]> ∅) "2024")
                (Some []) None in
  let year := latest_year (core data) in
  init (Some data) FetchRejected "solar" blankPage
  = mkPage
      (set_statFeature (featureOf year)
         (set_statYear (year +:+ "년")
            (set_sourceSelect "solar"
               (set_currentYear year
                  (set_globalData (Some (core data))
                     (page_state blankPage))))))
      (sourceOptions blankPage ++ sources (core data))
      (yearlyChart blankPage) (growthChartSlot blankPage)
      (alerts blankPage ++ [RuntimeError TypeError]).
Proof.
  apply (init_unknown_latest_year
           (Some (mkLoaded
                    (mkDataset ["solar"] (<["2023" := [exA]]> ∅) "2024")
                    (Some []) None))
           FetchRejected "solar" blankPage
           (mkLoaded (mkDataset ["solar"] (<["2023" := [exA]]> ∅) "2024")
              (Some []) None));
    vm_compute; reflexivity.
Defined.

(** Start-up raises at most one alert, and none exactly when a dataset
    was obtained whose latest year is a key of the regional mapping and
    which has yearly rows.  When no dataset is obtained the alert is the
    only change to the page. *)
Theorem init_alerts (preloaded : option LoadedData) (fetched : FetchOutcome)
    (picked : string) (p : Page) :
  (alerts (init preloaded fetched picked p) = alerts p \/
   exists f, alerts (init preloaded fetched picked p) = alerts p ++ [f]) /\
  (alerts (init preloaded fetched picked p) = alerts p <->
   exists data regs ys,
     acquire preloaded fetched = inr data /\
     regional (core data) !! latest_year (core data) = Some regs /\
     yearly data = Some ys) /\
  (forall f, acquire preloaded fetched = inl f ->
             init preloaded fetched picked p = alert f p).
Proof.
  assert (Hne : forall (l : list InitFailure) f, l ++ [f] <> l).
  { intros l f H. apply (f_equal length) in H.
    rewrite length_app in H. simpl in H. lia. }
  destruct (acquire preloaded fetched) as [f0 | data] eqn:Ha.
  - assert (Hi : init preloaded fetched picked p = alert f0 p)
      by (unfold init; now rewrite Ha).
    rewrite Hi. cbn [alert alerts]. split; [right; eauto|]. split.
    + split; [intros H; now apply Hne in H|].
      intros (d & regs & ys & H & _). discriminate.
    + intros f [= <-]. reflexivity.
  - destruct (regional (core data) !! latest_year (core data))
      as [regs|] eqn:Hy.
    + destruct (yearly data) as [ys|] eqn:Hys.
      * destruct (init_success_aux preloaded fetched picked p data regs ys
                    Ha Hy Hys) as (trend & _ & Hi).
        rewrite Hi. cbn [alerts]. split; [now left|]. split.
        -- split; [|reflexivity]. intros _. exists data, regs, ys. auto.
        -- intros f H. discriminate.
      * assert (Hi : alerts (init preloaded fetched picked p)
                     = alerts p ++ [RuntimeError TypeError]).
        { unfold init. rewrite Ha. cbn zeta.
          unfold populateRankingOptions.
          cbn [page_state sourceOptions yearlyChart growthChartSlot alerts].
          cbn [currentYear set_sourceSelect set_currentYear].
          rewrite (filterByYear_run
                     (set_sourceSelect picked
                        (set_currentYear (latest_year (core data))
                           (set_globalData (Some (core data))
                              (page_state p))))
                     (core data) (latest_year (core data)) regs eq_refl Hy).
          unfold renderYearlyCharts.
          rewrite (trendChart_missing data Hys). reflexivity. }
        rewrite Hi. split; [right; eauto|]. split.
        -- split; [intros H; now apply Hne in H|].
           intros (d & regs' & ys & [= <-] & _ & H). congruence.
        -- intros f H. discriminate.
    + assert (Hi := init_unknown_aux preloaded fetched picked p data Ha Hy).
      cbn zeta in Hi. rewrite Hi. cbn [alerts].
      split; [right; eauto|]. split.
      * split; [intros H; now apply Hne in H|].
        intros (d & regs & ys & [= <-] & H & _). congruence.
      * intros f H. discriminate.
Qed.

(** ** Which definitions are in force *)

Lemma runAssignments_lookup (prog : list TopLevel) (name : string) :
  forall g : gmap string nat,
    runAssignments prog g !! name = lastAssign prog name (g !! name).
Proof.
  unfold runAssignments.
  induction prog as [|[n line | n line] rest IH]; intros g;
    [reflexivity | apply IH |].
  cbn [fold_left lastAssign]. rewrite IH, lookup_insert.
  destruct (decide (n = name)); reflexivity.
Qed.

Lemma hoist_lookup (prog : list TopLevel) (name : string) :
  forall g : gmap string nat,
    hoist prog g !! name = lastDecl prog name (g !! name).
Proof.
  unfold hoist.
  induction prog as [|[n line | n line] rest IH]; intros g;
    [reflexivity | | apply IH].
  cbn [fold_left lastDecl]. rewrite IH, lookup_insert.
  destruct (decide (n = name)); reflexivity.
Qed.

Lemma lastAssign_acc (prog : list TopLevel) (name : string) :
  forall acc : option nat,
    lastAssign prog name acc
    = match lastAssign prog name None with
      | Some line => Some line
      | None => acc
      end.
Proof.
  induction prog as [|[n line | n line] rest IH]; intros acc;
    [reflexivity | apply IH |].
  cbn [lastAssign].
  rewrite (IH (if decide (n = name) then Some line else acc)).
  rewrite (IH (if decide (n = name) then Some line else None)).
  destruct (lastAssign rest name None); [reflexivity|].
  destruct (decide (n = name)); reflexivity.
Qed.

(** Once a script is loaded, a global name is bound to the last
    definition assigned to it through [window], wherever the declarations
    of that name stand, and to its last declaration only when it is never
    assigned.  In script.js this leaves [populateRankingOptions] with the
    definition of line 296 (the declaration of line 410, the one that
    preselects a source, is never in force), and [updateRankingTable] and
    [showHeatmap] with their second definitions (lines 423 and 462). *)
Theorem load_bindings (prog : list TopLevel) (name : string) :
  load prog !! name
  = match lastAssign prog name None with
    | Some line => Some line
    | None => lastDecl prog name None
    end /\
  load script !! "populateRankingOptions" = Some 296%nat /\
  load script !! "updateRankingTable" = Some 423%nat /\
  load script !! "showHeatmap" = Some 462%nat /\
  load script !! "renderMixChart" = Some 309%nat.
Proof.
  split.
  - unfold load. rewrite runAssignments_lookup, hoist_lookup.
    rewrite lookup_empty. apply lastAssign_acc.
  - repeat split; vm_compute; reflexivity.
Qed.

(** ** What the top regions leave out, and the shares of the mix chart *)

Lemma StronglySorted_app_dominates {A} (R : A -> A -> Prop)
    (l1 l2 : list A) :
  StronglySorted R (l1 ++ l2) ->
  forall a b, In a l1 -> In b l2 -> R a b.
Proof.
  induction l1 as [|x l1 IH]; intros Hs a b Ha Hb; [destruct Ha|].
  simpl in Hs. apply StronglySorted_inv in Hs. destruct Hs as [Hs Hx].
  destruct Ha as [<- | Ha].
  - rewrite List.Forall_forall in Hx. apply Hx, List.in_or_app. now right.
  - now apply IH.
Qed.

(** The regions that [topRegions] leaves out never have a larger total
    than one it returns, and it leaves none out when the year has at most
    [n] regions. *)
Theorem topRegions_dominate (data : Dataset) (year : string) (n : nat)
    (regs : list RegionRecord) :
  regional data !! year = Some regs ->
  exists top rest,
    topRegions data year n = Ok top /\
    Permutation (top ++ rest) regs /\
    (forall a b, In a top -> In b rest ->
                 regionTotal (sources data) b <= regionTotal (sources data) a) /\
    ((length regs <= n)%nat -> rest = [] /\ Permutation top regs).
Proof.
  intros Hy. unfold topRegions. rewrite Hy. unfold slice0.
  set (ranking := fullRanking (sources data) regs).
  assert (Hperm : Permutation ranking regs)
    by apply (js_sort_perm (regionTotal (sources data))).
  assert (Hdesc : descending (regionTotal (sources data)) ranking)
    by apply (js_sort_desc (regionTotal (sources data))).
  exists (take n ranking), (drop n ranking).
  split; [reflexivity|]. rewrite take_drop. split; [exact Hperm|]. split.
  - intros a b Ha Hb. unfold descending in Hdesc.
    rewrite <- (take_drop n ranking) in Hdesc.
    exact (StronglySorted_app_dominates _ _ _ Hdesc a b Ha Hb).
  - intros Hlen.
    assert (Hl : (length ranking <= n)%nat)
      by now rewrite (Permutation_length Hperm).
    rewrite (drop_ge ranking n Hl), (take_ge ranking n Hl). auto.
Qed.

Lemma topRegions_dominate_witness :
  exists top rest,
    topRegions exData "2023" 1 = Ok top /\
    Permutation (top ++ rest) [exA; exB] /\
    (forall a b, In a top -> In b rest ->
                 regionTotal (sources exData) b
                 <= regionTotal (sources exData) a) /\
    ((length [exA; exB] <= 1)%nat -> rest = [] /\ Permutation top [exA; exB]).
Proof.
  apply (topRegions_dominate exData "2023" 1 [exA; exB]).
  vm_compute; reflexivity.
Defined.

(** In the mix chart of a year whose total is not 0, with every series
    visible, the percentage behind the label of a source is that source's
    share of the year's total: [100 * sourceTotal / total], before
    rounding. *)
Theorem mix_percentages (data : Dataset) (year : string)
    (regs : list RegionRecord) (i : nat) (source : string) :
  regional data !! year = Some regs ->
  ~ totalGen (sources data) regs == 0 ->
  sources data !! i = Some source ->
  exists c value q,
    mixChart data year = Ok c /\
    mix_labels c !! i = Some source /\
    mix_data c !! i = Some value /\
    value == Qsum (map (fun r => get_or_zero r source) regs) /\
    rawPercent value (mix_data c) allVisible = Num q /\
    q == value * 100 / totalGen (sources data) regs.
Proof.
  intros Hy Hne Hi. unfold mixChart.
  rewrite (sourceMixTotals_known_year data year regs Hy).
  assert (Hsum : visibleSum allVisible (map (sourceTotal regs) (sources data))
                 == totalGen (sources data) regs).
  { rewrite visibleSum_values.
    assert (Hall : forall l k, visibleValues allVisible k l = l).
    { induction l as [|x l IH]; intros k; simpl; [reflexivity|].
      now rewrite IH. }
    rewrite Hall, sum_by_source_by_region. unfold totalGen.
    rewrite fold_left_Qplus_shift. lra. }
  eexists. exists (sourceTotal regs source). eexists.
  split; [reflexivity|]. cbn [mix_labels mix_data].
  split; [exact Hi|]. split; [now rewrite list_lookup_fmap, Hi|].
  split; [apply sourceTotal_sum|]. split.
  - apply rawPercent_finite. rewrite Hsum. exact Hne.
  - rewrite Hsum. reflexivity.
Qed.

Lemma mix_percentages_witness :
  exists c value q,
    mixChart exData "2023" = Ok c /\
    mix_labels c !! 0%nat = Some "solar" /\
    mix_data c !! 0%nat = Some value /\
    value == Qsum (map (fun r => get_or_zero r "solar") [exA; exB]) /\
    rawPercent value (mix_data c) allVisible = Num q /\
    q == value * 100 / totalGen (sources exData) [exA; exB].
Proof.
  apply (mix_percentages exData "2023" [exA; exB] 0 "solar").
  - vm_compute; reflexivity.
  - vm_compute; discriminate.
  - reflexivity.
Defined.
